(** * riskmapjnr: local deforestation rate by a blocked moving window

    A shallow embedding of [local_defor_rate] (src/local_defor_rate.py) and
    the properties of its block planner, mask builder, focal density filter,
    rate transform and block assembler.

    Conventions of the embedding
    - Python integers are [Z]; [//] and [%] with a positive divisor are
      [Z.div] and [Z.modulo] (both floor).
    - A 2-D numpy array is a list of rows; numpy arrays are rectangular,
      which the predicate [rect] records.
    - The [float] arrays produced by [uniform_filter] are idealised as exact
      rationals [Q] (no rounding error); the rate transform, which uses a
      real power, is idealised in [R].  The module [Binary64] follows the
      same lines in double precision, as SciPy and numpy compute them; it
      is used where the rounding matters, and the statements made of the
      exact values say so.
    - GDAL and SciPy are external: their calls are modelled from their
      documented behaviour, see [ReadAsArray], [WriteArray] and
      [uniform_filter]. *)

From Stdlib Require Import ZArith QArith Qreals Reals Lia Lqa Lra String.
From Stdlib Require Floats.
From stdpp Require Import base tactics option list.

Local Open Scope Z_scope.

(** ** Block planner (lines 86-103) *)

Module Planner.

(** [extra_lines = win_size // 2] *)
Definition extra_lines (win_size : Z) : Z := win_size / 2.

(** The [if]/[else] that sets [rows] for the block whose loop index is [i]. *)
Definition rows (ysize blk_rows win_size i : Z) : Z :=
  if i + blk_rows + 2 * extra_lines win_size - 1 <? ysize
  then blk_rows + 2 * extra_lines win_size
  else ysize - i + extra_lines win_size.

(** [yoff = max(0, i - extra_lines)] *)
Definition yoff (win_size i : Z) : Z := Z.max 0 (i - extra_lines win_size).

(** [range(0, ysize, blk_rows)]: [None] stands for the [ValueError] that a
    zero step raises; a negative step with a non-negative stop is empty. *)
Definition py_range (stop step : Z) : option (list Z) :=
  if step =? 0 then None
  else if 0 <? step
       then Some (map (fun k => Z.of_nat k * step)
                      (seq 0 (Z.to_nat ((stop + step - 1) / step))))
       else Some [].

(** Length of the Python slice [a[k:]] of a sequence of length [n]. *)
Definition slice_from_len (k n : Z) : Z :=
  if 0 <=? k then Z.max 0 (n - k) else Z.min n (- k).

(** The rows of the output that the block with index [i] writes
    (lines 127-131): first row and number of rows.  [out_data] has [rows]
    rows; [WriteArray(out_data)] writes at row 0. *)
Definition target_row (win_size i : Z) : Z :=
  if yoff win_size i =? 0 then 0 else yoff win_size i + extra_lines win_size.

Definition rows_written (ysize blk_rows win_size i : Z) : Z :=
  if yoff win_size i =? 0 then rows ysize blk_rows win_size i
  else slice_from_len (extra_lines win_size) (rows ysize blk_rows win_size i).

(** Does block [i] write output row [r]? *)
Definition writes_row (ysize blk_rows win_size i r : Z) : bool :=
  (target_row win_size i <=? r)
  && (r <? target_row win_size i + rows_written ysize blk_rows win_size i).

(** The loop indices of the blocks that write row [r]. *)
Definition writers (ysize blk_rows win_size r : Z) : list Z :=
  match py_range ysize blk_rows with
  | Some idx => filter (fun i => writes_row ysize blk_rows win_size i r = true) idx
  | None => []
  end.

(** Lines 88-91: [nblock = (ysize // blk_rows) + 1], and the arguments
    [(nblock, iter_block)] of the successive calls of [progress_bar] when the
    loop runs to its end; [iter_block] starts at 0 and is incremented before
    each call. *)
Definition nblock (ysize blk_rows : Z) : Z := ysize / blk_rows + 1.

Definition progress_calls (ysize blk_rows : Z) : list (Z * Z) :=
  match py_range ysize blk_rows with
  | Some idx => imap (fun k _ => (nblock ysize blk_rows, Z.of_nat k + 1)) idx
  | None => []
  end.

(** A configuration that passes the checks of lines 57-63, with the window
    and the grid non-empty. *)
Definition valid_config (ysize blk_rows win_size : Z) : Prop :=
  1 <= ysize /\ 1 <= win_size /\ win_size mod 2 = 1 /\ win_size <= blk_rows.

End Planner.

(** ** Arrays *)

Module Array2.

Definition nrows {A} (a : list (list A)) : nat := length a.

Definition ncols {A} (a : list (list A)) : nat :=
  match a with [] => 0%nat | row :: _ => length row end.

(** numpy arrays are rectangular. *)
Definition rect {A} (nr nc : nat) (a : list (list A)) : Prop :=
  length a = nr /\ Forall (fun row => length row = nc) a.

(** [a[r, c]] for an index inside the array. *)
Definition get {A} (a : list (list A)) (r c : nat) : option A :=
  match a !! r with Some row => row !! c | None => None end.

(** [a[r, c]] with the value [d] outside the array (the array extended by a
    constant). *)
Definition cell {A} (d : A) (a : list (list A)) (r c : Z) : A :=
  if (0 <=? r) && (0 <=? c)
  then default d (get a (Z.to_nat r) (Z.to_nat c))
  else d.

(** Every entry of the array is 0 or 1. *)
Definition binary (mask : list (list Z)) : Prop :=
  forall r c v, get mask r c = Some v -> v = 0 \/ v = 1.

(** The array of shape [(nr, nc)] whose entry [(r, c)] is [f r c]. *)
Definition tabulate {A} (nr nc : nat) (f : nat -> nat -> A) : list (list A) :=
  map (fun r => map (fun c => f r c) (seq 0 nc)) (seq 0 nr).

(** [np.zeros(shape, int)] and [np.ones(shape, int) * v]. *)
Definition full {A} (nr nc : nat) (v : A) : list (list A) :=
  replicate nr (replicate nc v).

(** [np.where(cond(a))] for a 2-D array: the index pairs of the entries
    that satisfy [cond], in row-major order. *)
Definition np_where (cond : Z -> bool) (a : list (list Z)) : list (nat * nat) :=
  mjoin (imap (fun r row =>
           mjoin (imap (fun c v => if cond v then [(r, c)] else []) row)) a).

(** [a[r, c] = v] *)
Definition set_cell {A} (a : list (list A)) (r c : nat) (v : A) : list (list A) :=
  alter (fun row => <[c := v]> row) r a.

(** [a[w] = vals] where the value stored at the index pair [(r, c)] of [w]
    is [f r c]. *)
Definition set_cells {A} (a : list (list A)) (w : list (nat * nat))
    (f : nat -> nat -> A) : list (list A) :=
  foldl (fun acc rc => set_cell acc (fst rc) (snd rc) (f (fst rc) (snd rc))) a w.

(** The Python slice [a[k:]]. *)
Definition slice_from {A} (k : Z) (a : list A) : list A :=
  if 0 <=? k then drop (Z.to_nat k) a
  else drop (length a - Z.to_nat (- k)) a.

End Array2.

(** ** Mask builder (lines 107-109 and 113-116) *)

Module Masks.
Import Array2.

(** [defor_data = np.zeros(in_data.shape, int);
    defor_data[np.where(in_data == 1)] = 1] *)
Definition defor_data (in_data : list (list Z)) : list (list Z) :=
  set_cells (full (nrows in_data) (ncols in_data) 0)
            (np_where (fun v => v =? 1) in_data) (fun _ _ => 1).

(** [w = np.where(in_data > 0)] *)
Definition w (in_data : list (list Z)) : list (nat * nat) :=
  np_where (fun v => 0 <? v) in_data.

(** [for_data = np.zeros(in_data.shape, int); for_data[w] = 1] *)
Definition for_data (in_data : list (list Z)) : list (list Z) :=
  set_cells (full (nrows in_data) (ncols in_data) 0) (w in_data) (fun _ _ => 1).

End Masks.

(** ** Focal density filter: [scipy.ndimage.uniform_filter]

    SciPy is external.  Its [uniform_filter] applies the one-dimensional
    [uniform_filter1d] along axis 0 and then along axis 1, skipping an axis
    whose size is not above 1 (with no axis left the input is copied).
    [uniform_filter1d] of size [n] with origin 0 replaces each entry of a
    line by the mean of the [n] entries that start [n // 2] places before
    it; with [mode="constant"] and [cval=0] entries beyond the ends of the
    line count as 0.

    The mean is taken exactly here.  SciPy computes it in double precision
    with a running sum along the line, so the value it returns can differ
    from the exact mean in the last bits: see [Binary64.uniform_filter]. *)

Module Focal.
Import Array2.

Local Open Scope Q_scope.

Definition sumQ (l : list Q) : Q := foldr Qplus 0 l.

(** [f start + f (start+1) + ... + f (start+size-1)] *)
Definition window_sum (f : Z -> Q) (start size : Z) : Q :=
  sumQ (map f (seqZ start size)).

Inductive axis := Axis0 | Axis1.

Definition uniform_filter1d (size : Z) (ax : axis) (a : list (list Q))
  : list (list Q) :=
  tabulate (nrows a) (ncols a) (fun r c =>
    match ax with
    | Axis0 => window_sum (fun k => cell 0 a k (Z.of_nat c))
                          (Z.of_nat r - size / 2)%Z size
    | Axis1 => window_sum (fun k => cell 0 a (Z.of_nat r) k)
                          (Z.of_nat c - size / 2)%Z size
    end / inject_Z size).

(** [uniform_filter(input, size=size, mode="constant", cval=0, output=float)] *)
Definition uniform_filter (input : list (list Z)) (size : Z) : list (list Q) :=
  let input := map (map inject_Z) input in
  if (1 <? size)%Z
  then uniform_filter1d size Axis1 (uniform_filter1d size Axis0 input)
  else input.

(** The sum of the entries of the zero-extended integer array [a] over the
    [size] by [size] window that starts [size // 2] places before [(r, c)],
    column by column. *)
Definition sumZ (l : list Z) : Z := foldr Z.add 0%Z l.

Definition column_total (a : list (list Z)) (size r k : Z) : Z :=
  sumZ (map (fun j => cell 0%Z a j k) (seqZ (r - size / 2) size)).

Definition window_total (a : list (list Z)) (size r c : Z) : Z :=
  sumZ (map (column_total a size r) (seqZ (c - size / 2) size)).

End Focal.

(** ** Rate transform (lines 120-125) *)

Module Rate.
Import Array2.

Local Open Scope R_scope.

(** [x ** t] on floats, for a base [x >= 0] and, when [x = 0], an exponent
    [t >= 0]: the real power, with [0 ** 0 = 1] and [0 ** t = 0].  Outside
    that domain numpy yields [inf] or [nan], which [R] does not have, and
    [np_power] says nothing of the program; the exact quotient keeps the
    base in [0, 1], the quotient of the doubles need not
    (see [Binary64]). *)
Definition np_power (x t : R) : R :=
  if Req_dec_T x 0 then (if Req_dec_T t 0 then 1 else 0) else Rpower x t.

(** [np.rint]: the nearest integer, a tie going to the even one. *)
Definition np_rint (x : R) : Z :=
  let f := Int_part x in
  let d := x - IZR f in
  if Rlt_dec d (1 / 2) then f
  else if Rlt_dec (1 / 2) d then (f + 1)%Z
  else if Z.even f then f else (f + 1)%Z.

(** [1 - (1 - win_defor / win_for) ** time_interval] at one cell *)
Definition rate (win_defor win_for : Q) (time_interval : R) : R :=
  1 - np_power (1 - Q2R win_defor / Q2R win_for) time_interval.

(** [np.rint(10000 * rate).astype(int)] at one cell *)
Definition rate_code (win_defor win_for : Q) (time_interval : R) : Z :=
  np_rint (10000 * rate win_defor win_for time_interval).

Definition nodata : Z := 65535.

(** Lines 107-125: the output block computed from the block read, in exact
    arithmetic. *)
Definition win_defor (in_data : list (list Z)) (win_size : Z) : list (list Q) :=
  Focal.uniform_filter (Masks.defor_data in_data) win_size.

Definition win_for (in_data : list (list Z)) (win_size : Z) : list (list Q) :=
  Focal.uniform_filter (Masks.for_data in_data) win_size.

Definition out_data (in_data : list (list Z)) (win_size : Z) (time_interval : R)
  : list (list Z) :=
  set_cells (full (nrows in_data) (ncols in_data) nodata) (Masks.w in_data)
    (fun r c => rate_code (cell 0%Q (win_defor in_data win_size) (Z.of_nat r) (Z.of_nat c))
                          (cell 0%Q (win_for in_data win_size) (Z.of_nat r) (Z.of_nat c))
                          time_interval).

End Rate.

(** ** Raster reader and writer (GDAL, external)

    [ReadAsArray(0, yoff, xsize, rows)] returns the requested rows, or fails
    when the window is empty or leaves the band; the Python code then raises
    on [in_data.shape].  [WriteArray(array, 0, yoff)] stores the rows of
    [array] from row [yoff] on and raises when they do not fit in the band.
    A raster that was just created is taken to read as 0 everywhere; what
    GDAL returns for cells that were never written depends on the driver
    and on the declared no-data value. *)

Module Gdal.

Definition ReadAsArray (band : list (list Z)) (yoff rows : Z) : option (list (list Z)) :=
  if (0 <=? yoff) && (1 <=? rows) && (yoff + rows <=? Z.of_nat (length band))
  then Some (take (Z.to_nat rows) (drop (Z.to_nat yoff) band))
  else None.

Definition WriteArray (band array : list (list Z)) (yoff : Z) : option (list (list Z)) :=
  if (0 <=? yoff) && (yoff + Z.of_nat (length array) <=? Z.of_nat (length band))
  then Some (list_inserts (Z.to_nat yoff) array band)
  else None.

End Gdal.

(** ** The operation [local_defor_rate] (lines 23-135) *)

Inductive event :=
| EvPrint (msg : string)
| EvOpen
| EvCreate (xsize ysize : nat)
| EvRead (yoff rows : Z)
| EvWrite (yoff : Z) (nrows : nat)
| EvFlush.

(** How a call ends: it returns (always [None] in the source) or an
    exception leaves it. *)
Inductive ending := Returned | Raised.

(** What a call did: the events in order, the output raster if one was
    created, and how the call ended. *)
Record run := Run {
  events : list event;
  out_band : option (list (list Z));
  ended : ending
}.

(** The body of the [for] loop, for the remaining loop indices [idx]. *)
Fixpoint blocks_loop (in_band : list (list Z)) (win_size : Z) (time_interval : R)
    (blk_rows : Z) (idx : list Z) (out : list (list Z)) (log : list event) : run :=
  match idx with
  | [] => Run (log ++ [EvFlush]) (Some out) Returned
  | i :: idx' =>
    let ysize := Z.of_nat (Array2.nrows in_band) in
    let extra_lines := Planner.extra_lines win_size in
    let rows := Planner.rows ysize blk_rows win_size i in
    let yoff := Planner.yoff win_size i in
    match Gdal.ReadAsArray in_band yoff rows with
    | None => Run (log ++ [EvRead yoff rows]) (Some out) Raised
    | Some in_data =>
      let out_data := Rate.out_data in_data win_size time_interval in
      let array := if yoff =? 0 then out_data
                   else Array2.slice_from extra_lines out_data in
      let dest := if yoff =? 0 then 0 else yoff + extra_lines in
      let log' := log ++ [EvRead yoff rows; EvWrite dest (length array)] in
      match Gdal.WriteArray out array dest with
      | None => Run log' (Some out) Raised
      | Some out' =>
        blocks_loop in_band win_size time_interval blk_rows idx' out' log'
      end
    end
  end.

(** [in_band] is the content of band 1 of [input_file]; the progress bar,
    the projection, the declaration of the no-data value (line 80, which
    sets metadata of the output file and writes no cell) and the statistics
    are left out.  The content of the output raster is what the calls of
    [WriteArray] store; the cells never written are taken to read 0. *)
Definition local_defor_rate (in_band : list (list Z)) (win_size : Z)
    (time_interval : R) (blk_rows : Z) : run :=
  if win_size mod 2 =? 0
  then Run [EvPrint "'win_size' must be an odd number."] None Returned
  else if win_size >? blk_rows
  then Run [EvPrint "'win_size' must be lower or equal to 'blk_rows'."] None Returned
  else
    let xsize := Array2.ncols in_band in
    let ysize := Array2.nrows in_band in
    let out := Array2.full ysize xsize 0 in
    let log := [EvOpen; EvCreate xsize ysize] in
    match Planner.py_range (Z.of_nat ysize) blk_rows with
    | None => Run log (Some out) Raised
    | Some idx => blocks_loop in_band win_size time_interval blk_rows idx out log
    end.

(** The events of a block that is read and written without error, as the
    planner gives them. *)
Definition planned_events (ysize blk_rows win_size i : Z) : list event :=
  [EvRead (Planner.yoff win_size i) (Planner.rows ysize blk_rows win_size i);
   EvWrite (Planner.target_row win_size i)
           (Z.to_nat (Planner.rows_written ysize blk_rows win_size i))].

(** The output code of a cell when the window is the cell alone and the
    time interval is positive: 10000 for class 1, 0 for another positive
    class, the sentinel otherwise. *)
Definition recode (v : Z) : Z :=
  if v =? 1 then 10000 else if 0 <? v then 0 else Rate.nodata.

(** ** [find_version] (src/setup.py, lines 19-27)

    The text of [riskmapjnr/riskmapjnr.py] is a sequence of Unicode code
    points.  The pattern is, in order: [^], the literal [__version__],
    [\s*], [=], [\s*], a double quote, the group [.*] and a double quote.
    [re.search] with [re.M] tries the start positions from left to right;
    [^] holds at the start of the text and after each newline; [\s*] is
    greedy, and since neither [=] nor the quote is a space it can only
    succeed by taking all the spaces; [.] is any character but the newline
    and the group is greedy, so it ends at the last quote of the line.
    Without a match [re.search] returns [None] and [.group(1)] raises: the
    result is [None] here. *)

Module Setup.

Definition codes (s : string) : list Z :=
  map (fun a => Z.of_N (Ascii.N_of_ascii a)) (list_ascii_of_string s).

Definition newline : Z := 10.
Definition quote : Z := 34.
Definition equals : Z := 61.

(** [\s] in a [str] pattern: the characters for which [str.isspace] holds. *)
Definition is_space (c : Z) : bool :=
  ((9 <=? c) && (c <=? 13)) || ((28 <=? c) && (c <=? 32))
  || (c =? 133) || (c =? 160) || (c =? 5760)
  || ((8192 <=? c) && (c <=? 8202)) || (c =? 8232) || (c =? 8233)
  || (c =? 8239) || (c =? 8287) || (c =? 12288).

Definition key : list Z := codes "__version__".

(** The literal [p] at the head of [s]: what follows it. *)
Fixpoint strip_prefix (p s : list Z) : option (list Z) :=
  match p, s with
  | [], _ => Some s
  | a :: p', b :: s' => if a =? b then strip_prefix p' s' else None
  | _ :: _, [] => None
  end.

(** [\s*] *)
Fixpoint skip_spaces (s : list Z) : list Z :=
  match s with
  | c :: s' => if is_space c then skip_spaces s' else s
  | [] => []
  end.

(** One given character. *)
Definition expect (c : Z) (s : list Z) : option (list Z) :=
  match s with
  | b :: s' => if b =? c then Some s' else None
  | [] => None
  end.

(** The group and the closing quote: the longest run of characters other
    than the newline that is followed by a quote. *)
Fixpoint greedy_to_quote (s : list Z) : option (list Z) :=
  match s with
  | [] => None
  | c :: s' =>
    if c =? newline then None
    else match greedy_to_quote s' with
         | Some g => Some (c :: g)
         | None => if c =? quote then Some [] else None
         end
  end.

(** The pattern after [^], tried at the head of [s]: group 1. *)
Definition match_at (s : list Z) : option (list Z) :=
  match strip_prefix key s with
  | None => None
  | Some s1 =>
    match expect equals (skip_spaces s1) with
    | None => None
    | Some s2 =>
      match expect quote (skip_spaces s2) with
      | None => None
      | Some s3 => greedy_to_quote s3
      end
    end
  end.

(** [re.search]: the first position, at the start of a line, where the
    pattern matches. *)
Fixpoint search (line_start : bool) (s : list Z) : option (list Z) :=
  match (if line_start then match_at s else None) with
  | Some g => Some g
  | None =>
    match s with
    | [] => None
    | c :: s' => search (c =? newline) s'
    end
  end.

Definition find_version (far : list Z) : option (list Z) := search true far.

(** Complete lines, none of which starts with an underscore. *)
Definition other_lines (pre : list Z) : Prop :=
  exists ls : list (list Z),
    pre = concat (map (fun l => l ++ [newline]) ls) /\
    Forall (fun l => (newline ∉ l) /\ head l <> Some 95) ls.

(** No quote before the end of the first line. *)
Definition no_quote_on_line (rest : list Z) : Prop :=
  forall l1 l2, rest = l1 ++ quote :: l2 -> newline ∈ l1.

End Setup.

(** ** Reference definitions that follow the words of the specification *)

Module Reference.
Import Array2.

(** The cells of the window of side [win_size] centred on [(r, c)]. *)
Definition window_cells (win_size r c : Z) : list (Z * Z) :=
  r' ← seqZ (r - win_size / 2) (2 * (win_size / 2) + 1);
  c' ← seqZ (c - win_size / 2) (2 * (win_size / 2) + 1);
  [(r', c')].

(** Does the cell lie inside the array and hold a 1? *)
Definition is_one (mask : list (list Z)) (rc : Z * Z) : bool :=
  (0 <=? fst rc) && (0 <=? snd rc) &&
  match get mask (Z.to_nat (fst rc)) (Z.to_nat (snd rc)) with
  | Some v => v =? 1
  | None => false
  end.

(** The number of 1-valued cells of the window that lie inside the array,
    divided by [win_size] squared. *)
Definition focal_density (mask : list (list Z)) (win_size r c : Z) : Q :=
  (inject_Z (Z.of_nat (length (filter (fun rc => is_one mask rc = true)
                                      (window_cells win_size r c))))
   / inject_Z (win_size * win_size))%Q.


End Reference.

(** ** The densities and the code in binary64

    [Focal.uniform_filter] and [Rate.rate_code] compute the window means and
    the code exactly.  The program computes both in double precision:
    SciPy's C routine [NI_UniformFilter1D] (external to this repository)
    runs along each line with a running sum, and numpy evaluates line 124
    on doubles.  This module follows that arithmetic with the kernel's
    binary64 numbers, so that the two can be compared on concrete blocks.

    [NI_UniformFilter1D], for one line extended by [size // 2] zeros on the
    left and [size - size // 2 - 1] zeros on the right ([mode="constant"],
    [cval=0], origin 0), has had two forms.  In the one the running sum is
    divided when an entry is stored:

      tmp = 0; for (ll = 0; ll < size; ll++) tmp += iline[ll];
      oline[0] = tmp / size;
      for (ll = 1; ll < length; ll++)
        { tmp += iline[ll + size - 1] - iline[ll - 1]; oline[ll] = tmp / size; }

    In the other each increment is divided and the sum is stored as it is:

      tmp = 0; for (ll = 0; ll < size; ll++) tmp += iline[ll];
      tmp /= size; oline[0] = tmp;
      for (ll = 1; ll < length; ll++)
        { tmp += (iline[ll + size - 1] - iline[ll - 1]) / size; oline[ll] = tmp; }

    The two are the variants [SumThenDivide] and [DivideThenSum]. *)

Module Binary64.
Import PrimFloat SpecFloat FloatOps Array2.

Local Open Scope float_scope.

Inductive variant := SumThenDivide | DivideThenSum.

(** The double of a small non-negative integer (a mask entry, the window
    size). *)
Definition of_Z (v : Z) : float := of_uint63 (Uint63.of_Z v).

(** The second loop of [NI_UniformFilter1D], over the pairs of the entry
    that leaves the window and the entry that enters it. *)
Fixpoint slide (v : variant) (fs tmp : float) (pairs : list (float * float))
  : list float :=
  match pairs with
  | [] => []
  | (l1, l2) :: rest =>
    match v with
    | SumThenDivide =>
      let tmp' := tmp + (l2 - l1) in tmp' / fs :: slide v fs tmp' rest
    | DivideThenSum =>
      let tmp' := tmp + (l2 - l1) / fs in tmp' :: slide v fs tmp' rest
    end
  end.

(** [NI_UniformFilter1D] on one line. *)
Definition uniform_filter1d (v : variant) (size : Z) (line : list float)
  : list float :=
  match line with
  | [] => []
  | _ :: _ =>
    let size1 := (size / 2)%Z in
    let size2 := (size - size1 - 1)%Z in
    let iline := replicate (Z.to_nat size1) 0 ++ line
                 ++ replicate (Z.to_nat size2) 0 in
    let fs := of_Z size in
    let tmp := foldl add 0 (take (Z.to_nat size) iline) in
    let pairs := zip iline (drop (Z.to_nat size) iline) in
    match v with
    | SumThenDivide => tmp / fs :: slide v fs tmp pairs
    | DivideThenSum => tmp / fs :: slide v fs (tmp / fs) pairs
    end
  end.

(** The [n] columns of an array as lines, and back. *)
Fixpoint transpose {A} (n : nat) (a : list (list A)) : list (list A) :=
  match n with
  | O => []
  | S n' => omap head a :: transpose n' (map tail a)
  end.

(** [uniform_filter(input, size=size, mode="constant", cval=0, output=float)]:
    axis 0 (the columns) first, then axis 1 (the rows). *)
Definition uniform_filter (v : variant) (input : list (list Z)) (size : Z)
  : list (list float) :=
  let a := map (map of_Z) input in
  if (1 <? size)%Z
  then let axis0 := transpose (nrows a)
                      (map (uniform_filter1d v size) (transpose (ncols a) a)) in
       map (uniform_filter1d v size) axis0
  else a.

Definition win_defor (v : variant) (in_data : list (list Z)) (win_size : Z)
  : list (list float) :=
  uniform_filter v (Masks.defor_data in_data) win_size.

Definition win_for (v : variant) (in_data : list (list Z)) (win_size : Z)
  : list (list float) :=
  uniform_filter v (Masks.for_data in_data) win_size.

(** [np.rint] on a double: below 2^52 in absolute value, adding and then
    subtracting 2^52 rounds to the nearest integer, a tie going to the even
    one; from 2^52 on every double is an integer. *)
Definition two52 : float := 4503599627370496.

Definition np_rint (x : float) : float :=
  if abs x <? two52
  then (if x <? 0 then (x - two52) + two52 else (x + two52) - two52)
  else x.

(** [.astype(int)]: the integer part of a finite double; the conversion of
    [nan] or of an infinity is not defined by C, hence [None]. *)
Definition astype_int (x : float) : option Z :=
  match Prim2SF x with
  | S754_zero _ => Some 0%Z
  | S754_finite s m e =>
    let n := (if 0 <=? e then Z.pos m * 2 ^ e else Z.pos m / 2 ^ (- e))%Z in
    Some (if s then (- n)%Z else n)
  | _ => None
  end.

(** [np.rint(10000 * (1 - (1 - p) ** time_interval))] for the quotient [p];
    the function [power] stands for [x ** time_interval].  numpy evaluates
    [x ** 1] as [x] and [x ** 0.5] as [np.sqrt(x)]; other exponents go
    through the C library's [pow]. *)
Definition quotient_code (power : float -> float) (p : float) : float :=
  np_rint (10000 * (1 - power (1 - p))).

(** Line 124 at one cell. *)
Definition rate_code (power : float -> float) (win_defor win_for : float)
  : float :=
  quotient_code power (win_defor / win_for).

(** Lines 121-125 for one block. *)
Definition out_data (v : variant) (power : float -> float)
    (in_data : list (list Z)) (win_size : Z) : list (list (option Z)) :=
  set_cells (full (nrows in_data) (ncols in_data) (Some Rate.nodata))
    (Masks.w in_data)
    (fun r c => astype_int
       (rate_code power
          (cell nan (win_defor v in_data win_size) (Z.of_nat r) (Z.of_nat c))
          (cell nan (win_for v in_data win_size) (Z.of_nat r) (Z.of_nat c)))).

End Binary64.

(** ** Small inputs used in the examples *)

Module Examples.

(** Eight rows of two cells.  With [win_size = 3] and [blk_rows = 3] the
    blocks start at rows 0, 3 and 6. *)
Definition tall : list (list Z) :=
  [[3; 3]; [3; 3]; [0; 2]; [3; 0]; [1; 1]; [2; 3]; [0; 0]; [3; 1]].

(** The first block read from [tall]: rows 0 to 4. *)
Definition tall_block0 : list (list Z) :=
  [[3; 3]; [3; 3]; [0; 2]; [3; 0]; [1; 1]].

(** Three rows, forest in the last one only. *)
Definition bare : list (list Z) := [[0; 0]; [0; 0]; [0; 3]].

(** A binary mask with ones on the diagonal. *)
Definition diagonal : list (list Z) := [[1; 0]; [0; 1]].

(** A 3 by 3 grid of forest. *)
Definition forest3 : list (list Z) := [[3; 3; 3]; [3; 3; 3]; [3; 3; 3]].

(** Five rows of four cells.  With [win_size = 3] and [blk_rows = 3] the
    first block read is the whole grid.  The window of the cell (3, 3)
    holds one cell of positive class, the cell itself, of class 1. *)
Definition sparse : list (list Z) :=
  [[0; 1; 0; 0]; [0; 0; 0; 3]; [0; 1; 0; 0]; [3; 1; 0; 1]; [3; 3; 0; 0]].

(** Thirteen rows of seven cells.  With [win_size = 7] and [blk_rows = 7]
    the first block read is the whole grid.  The window of the cell (1, 3)
    covers rows 0 to 4 and all the columns: 32 cells of positive class, 19
    of them of class 1. *)
Definition clearing : list (list Z) :=
  [[1; 1; 1; 1; 1; 1; 1]; [1; 3; 3; 3; 1; 1; 1]; [1; 3; 3; 3; 1; 1; 1];
   [1; 3; 3; 3; 1; 1; 1]; [3; 0; 0; 0; 3; 3; 3]; [3; 3; 3; 3; 3; 3; 3];
   [3; 3; 3; 3; 3; 3; 3]; [3; 3; 3; 3; 3; 3; 3]; [3; 3; 3; 3; 3; 3; 3];
   [3; 3; 3; 3; 3; 3; 3]; [3; 3; 3; 3; 3; 3; 3]; [3; 3; 3; 3; 3; 3; 3];
   [3; 3; 3; 3; 3; 3; 3]].

End Examples.

(** * Properties *)

(** [0 <= ws / 2 < ws] for a window size [ws >= 1]. *)
Ltac half_bounds ws :=
  pose proof (Z.div_pos ws 2 ltac:(lia) ltac:(lia));
  pose proof (Z.div_lt_upper_bound ws 2 ws ltac:(lia) ltac:(lia)).

(** The shape of a literal array. *)
Ltac rect_literal := split; [reflexivity | repeat constructor].

(** ** Block planner *)

Section PlannerFacts.
Import Planner.

Lemma odd_half ws :
  1 <= ws -> ws mod 2 = 1 -> ws = 2 * extra_lines ws + 1 /\ 0 <= extra_lines ws.
Proof.
  intros H1 Hodd. unfold extra_lines.
  pose proof (Z.div_mod ws 2 ltac:(lia)) as Hd.
  split; [lia|]. apply Z.div_pos; lia.
Qed.

Lemma ceil_div_lt k stop step :
  0 < step -> 0 <= k -> (k < (stop + step - 1) / step <-> k * step < stop).
Proof.
  intros Hs Hk.
  pose proof (Z.div_mod (stop + step - 1) step ltac:(lia)) as Hd.
  pose proof (Z.mod_pos_bound (stop + step - 1) step Hs) as Hm.
  set (q := (stop + step - 1) / step) in *.
  set (m := (stop + step - 1) mod step) in *.
  split; intros H; nia.
Qed.

Lemma elem_of_py_range stop step idx i :
  0 < step -> py_range stop step = Some idx ->
  (i ∈ idx <-> exists k, 0 <= k /\ i = k * step /\ i < stop).
Proof.
  intros Hs. unfold py_range.
  destruct (Z.eqb_spec step 0) as [|_]; [lia|].
  destruct (Z.ltb_spec 0 step) as [_|]; [|lia].
  intros [= <-]. rewrite list_elem_of_fmap. split.
  - intros (k & -> & Hk). apply elem_of_seq in Hk.
    exists (Z.of_nat k). split; [lia|]. split; [done|].
    apply ceil_div_lt; lia.
  - intros (k & Hk & -> & Hlt). exists (Z.to_nat k).
    split; [lia|]. apply elem_of_seq.
    apply ceil_div_lt in Hlt; lia.
Qed.

Lemma NoDup_py_range stop step idx :
  0 < step -> py_range stop step = Some idx -> NoDup idx.
Proof.
  intros Hs. unfold py_range.
  destruct (Z.eqb_spec step 0) as [|_]; [lia|].
  destruct (Z.ltb_spec 0 step) as [_|]; [|lia].
  intros [= <-]. apply NoDup_fmap_2_strong; [|apply NoDup_seq].
  intros a b _ _ Hab. nia.
Qed.

(** A block other than a short first one reads inside the grid. *)
Lemma read_window_in_grid ysize blk_rows ws i k :
  valid_config ysize blk_rows ws ->
  0 <= k -> i = k * blk_rows -> i < ysize ->
  (0 < i \/ blk_rows + 2 * extra_lines ws - 1 < ysize \/ ws = 1) ->
  0 <= yoff ws i /\ 1 <= rows ysize blk_rows ws i /\
  yoff ws i + rows ysize blk_rows ws i <= ysize.
Proof.
  intros (Hy & Hw & Hodd & Hb) Hk -> Hlt Hcase.
  destruct (odd_half ws Hw Hodd) as [Hh Hh0].
  unfold yoff, rows. set (h := extra_lines ws) in *.
  assert (k = 0 \/ blk_rows <= k * blk_rows) as [-> | Hge] by nia.
  - destruct (Z.ltb_spec (0 * blk_rows + blk_rows + 2 * h - 1) ysize); lia.
  - destruct (Z.ltb_spec (k * blk_rows + blk_rows + 2 * h - 1) ysize); lia.
Qed.

(** The rows a block writes, in closed form. *)
Lemma writes_row_spec ysize blk_rows ws i k r :
  valid_config ysize blk_rows ws ->
  0 <= k -> i = k * blk_rows ->
  writes_row ysize blk_rows ws i r = true <->
  (if k =? 0 then 0 else i) <= r <
  (if i + blk_rows + 2 * extra_lines ws - 1 <? ysize
   then (if k =? 0 then blk_rows + 2 * extra_lines ws
         else i + blk_rows + extra_lines ws)
   else (if k =? 0 then ysize + extra_lines ws else Z.max i ysize)).
Proof.
  intros (Hy & Hw & Hodd & Hb) Hk ->.
  destruct (odd_half ws Hw Hodd) as [Hh Hh0].
  unfold writes_row, target_row, rows_written, slice_from_len, yoff, rows.
  set (h := extra_lines ws) in *.
  rewrite andb_true_iff, Z.leb_le, Z.ltb_lt.
  destruct (Z.eqb_spec k 0) as [->|Hk0].
  - rewrite Z.mul_0_l. replace (Z.max 0 (0 - h)) with 0 by lia.
    change (0 =? 0) with true. cbv iota.
    destruct (Z.ltb_spec (0 + blk_rows + 2 * h - 1) ysize); lia.
  - replace (Z.max 0 (k * blk_rows - h)) with (k * blk_rows - h) by nia.
    destruct (Z.eqb_spec (k * blk_rows - h) 0) as [|_]; [nia|].
    destruct (Z.leb_spec 0 h); [|lia].
    destruct (Z.ltb_spec (k * blk_rows + blk_rows + 2 * h - 1) ysize); lia.
Qed.

End PlannerFacts.

Section Coverage.
Import Planner.

Lemma py_range_pos stop step :
  0 < step -> exists idx, py_range stop step = Some idx.
Proof.
  intros Hs. unfold py_range.
  destruct (Z.eqb_spec step 0); [lia|].
  destruct (Z.ltb_spec 0 step); [eauto|lia].
Qed.

Lemma writer_index ysize blk_rows ws r i :
  valid_config ysize blk_rows ws ->
  blk_rows + 2 * extra_lines ws - 1 < ysize \/ ws = 1 ->
  0 <= r < ysize ->
  i ∈ writers ysize blk_rows ws r ->
  (i = blk_rows * (r / blk_rows) \/
   (ws <> 1 /\ i = blk_rows * (r / blk_rows) - blk_rows)).
Proof.
  intros Hv Htall Hr. pose proof Hv as (Hy & Hw & Hodd & Hb).
  destruct (odd_half ws Hw Hodd) as [Hh Hh0].
  unfold writers. destruct (py_range_pos ysize blk_rows ltac:(lia)) as [idx Hidx].
  rewrite Hidx. rewrite list_elem_of_filter.
  rewrite (elem_of_py_range ysize blk_rows idx _ ltac:(lia) Hidx).
  intros [Hwr (k & Hk & -> & Hlt)].
  apply (writes_row_spec _ _ _ _ k r Hv Hk eq_refl) in Hwr.
  pose proof (Z.div_mod r blk_rows ltac:(lia)) as Hd.
  pose proof (Z.mod_pos_bound r blk_rows ltac:(lia)) as Hm.
  set (q := r / blk_rows) in *. set (m := r mod blk_rows) in *.
  set (h := extra_lines ws) in *.
  assert (k <= q /\ q <= k + 1 /\ (ws = 1 -> q <= k)) as (Hq0 & Hq1 & Hq2).
  { revert Hwr.
    destruct (Z.ltb_spec (k * blk_rows + blk_rows + 2 * h - 1) ysize);
      destruct (Z.eqb_spec k 0); intros Hwr; repeat split; nia. }
  destruct (Z.eq_dec ws 1); [left; nia|].
  assert (k = q \/ k = q - 1) as [->| ->] by lia; [left|right]; nia.
Qed.

Lemma home_block_writes ysize blk_rows ws r :
  valid_config ysize blk_rows ws ->
  blk_rows + 2 * extra_lines ws - 1 < ysize \/ ws = 1 ->
  0 <= r < ysize ->
  blk_rows * (r / blk_rows) ∈ writers ysize blk_rows ws r.
Proof.
  intros Hv Htall Hr. pose proof Hv as (Hy & Hw & Hodd & Hb).
  destruct (odd_half ws Hw Hodd) as [Hh Hh0].
  unfold writers. destruct (py_range_pos ysize blk_rows ltac:(lia)) as [idx Hidx].
  rewrite Hidx. rewrite list_elem_of_filter.
  rewrite (elem_of_py_range ysize blk_rows idx _ ltac:(lia) Hidx).
  pose proof (Z.div_mod r blk_rows ltac:(lia)) as Hd.
  pose proof (Z.mod_pos_bound r blk_rows ltac:(lia)) as Hm.
  assert (0 <= r / blk_rows) as Hq by (apply Z.div_pos; lia).
  set (q := r / blk_rows) in *. set (m := r mod blk_rows) in *.
  set (h := extra_lines ws) in *.
  split.
  - apply (writes_row_spec _ _ _ _ q r Hv Hq); [lia|]. fold h.
    destruct (Z.ltb_spec (blk_rows * q + blk_rows + 2 * h - 1) ysize);
      destruct (Z.eqb_spec q 0); nia.
  - exists q. nia.
Qed.

End Coverage.

Section CoverageTheorems.
Import Planner.

Lemma writers_NoDup ysize blk_rows ws r :
  0 < blk_rows -> NoDup (writers ysize blk_rows ws r).
Proof.
  intros Hb. unfold writers.
  destruct (py_range_pos ysize blk_rows Hb) as [idx Hidx]. rewrite Hidx.
  apply NoDup_filter. by apply (NoDup_py_range ysize blk_rows).
Qed.

Lemma writes_inside_grid ysize blk_rows ws r i :
  valid_config ysize blk_rows ws ->
  blk_rows + 2 * extra_lines ws - 1 < ysize \/ ws = 1 ->
  i ∈ writers ysize blk_rows ws r -> 0 <= r < ysize.
Proof.
  intros Hv Htall. pose proof Hv as (Hy & Hw & Hodd & Hb).
  destruct (odd_half ws Hw Hodd) as [Hh Hh0].
  unfold writers. destruct (py_range_pos ysize blk_rows ltac:(lia)) as [idx Hidx].
  rewrite Hidx. rewrite list_elem_of_filter.
  rewrite (elem_of_py_range ysize blk_rows idx _ ltac:(lia) Hidx).
  intros [Hwr (k & Hk & -> & Hlt)].
  apply (writes_row_spec _ _ _ _ k r Hv Hk eq_refl) in Hwr.
  set (h := extra_lines ws) in *. revert Hwr.
  destruct (Z.ltb_spec (k * blk_rows + blk_rows + 2 * h - 1) ysize);
    destruct (Z.eqb_spec k 0); intros Hwr; nia.
Qed.

(** C1, counterexample: with [ysize = 10], [blk_rows = 3] and
    [win_size = 3] the configuration is valid, and output row 3 is written
    by the block of index 0 (which writes rows 0 to 4) and again by the block
    of index 3: the written ranges overlap. *)
Lemma C1_row_written_twice :
  valid_config 10 3 3 /\ writers 10 3 3 3 = [0; 3] /\
  writes_row 10 3 3 0 3 = true /\ writes_row 10 3 3 3 3 = true.
Proof. unfold valid_config. repeat split; try lia; reflexivity. Qed.

(** C1, as amended: for a valid configuration whose first block is not the
    last one ([blk_rows + 2 * (win_size // 2) - 1 < ysize]), or with
    [win_size = 1], no block writes outside [0, ysize) and every row [r] of
    [0, ysize) is written at least once and at most twice (exactly once
    when [win_size = 1]); the block of index [blk_rows * (r // blk_rows)]
    writes it and no block of a larger index does. *)
Theorem C1_rows_covered ysize blk_rows ws r :
  valid_config ysize blk_rows ws ->
  blk_rows + 2 * extra_lines ws - 1 < ysize \/ ws = 1 ->
  0 <= r < ysize ->
  (1 <= length (writers ysize blk_rows ws r) <= 2)%nat /\
  (ws = 1 -> length (writers ysize blk_rows ws r) = 1%nat) /\
  blk_rows * (r / blk_rows) ∈ writers ysize blk_rows ws r /\
  (forall i, i ∈ writers ysize blk_rows ws r -> i <= blk_rows * (r / blk_rows)) /\
  (forall r' i, i ∈ writers ysize blk_rows ws r' -> 0 <= r' < ysize).
Proof.
  intros Hv Htall Hr. pose proof Hv as (Hy & Hw & Hodd & Hb).
  pose proof (home_block_writes _ _ _ _ Hv Htall Hr) as Hhome.
  pose proof (writers_NoDup ysize blk_rows ws r ltac:(lia)) as Hnd.
  assert (1 <= length (writers ysize blk_rows ws r))%nat as Hge.
  { destruct (writers ysize blk_rows ws r); [by apply elem_of_nil in Hhome|].
    simpl; lia. }
  assert (length (writers ysize blk_rows ws r) <= 2)%nat as Hle.
  { change 2%nat with
      (length [blk_rows * (r / blk_rows); blk_rows * (r / blk_rows) - blk_rows]).
    apply submseteq_length, NoDup_submseteq; [done|].
    intros i Hi. destruct (writer_index _ _ _ _ _ Hv Htall Hr Hi) as [->|[_ ->]];
      rewrite !elem_of_cons; auto. }
  repeat split; try done.
  - intros Hws.
    assert (length (writers ysize blk_rows ws r) <= 1)%nat; [|lia].
    change 1%nat with (length [blk_rows * (r / blk_rows)]).
    apply submseteq_length, NoDup_submseteq; [done|].
    intros i Hi. destruct (writer_index _ _ _ _ _ Hv Htall Hr Hi) as [->|[? _]];
      [apply list_elem_of_here|done].
  - intros i Hi.
    destruct (writer_index _ _ _ _ _ Hv Htall Hr Hi) as [->|[_ ->]]; lia.
  - eapply writes_inside_grid; eauto.
  - eapply writes_inside_grid; eauto.
Qed.

Lemma C1_rows_covered_witness :
  (1 <= length (writers 10 3 3 3) <= 2)%nat /\
  (3 = 1 -> length (writers 10 3 3 3) = 1%nat) /\
  3 * (3 / 3) ∈ writers 10 3 3 3 /\
  (forall i, i ∈ writers 10 3 3 3 -> i <= 3 * (3 / 3)) /\
  (forall r' i, i ∈ writers 10 3 3 r' -> 0 <= r' < 10).
Proof.
  apply (C1_rows_covered 10 3 3 3).
  - unfold valid_config. repeat split; try lia; reflexivity.
  - left. vm_compute. reflexivity.
  - lia.
Defined.

(** C3, the failing input: a grid of 3 rows with [blk_rows = 3] and
    [win_size = 3] is a valid configuration; its only block has
    [yoff = 0] and [rows = 4], so the read asks for a row beyond the grid,
    the reader fails and the call raises before anything is written. *)
Theorem C3_first_block_reads_past_grid (t : R) :
  let g := Examples.forest3 in
  valid_config 3 3 3 /\
  py_range 3 3 = Some [0] /\
  yoff 3 0 = 0 /\ rows 3 3 3 0 = 4 /\
  Gdal.ReadAsArray g 0 4 = None /\
  local_defor_rate g 3 t 3 =
    Run [EvOpen; EvCreate 3 3; EvRead 0 4] (Some (Array2.full 3 3 0)) Raised.
Proof. unfold valid_config. repeat split; try lia; reflexivity. Qed.

End CoverageTheorems.

(** ** Validation (lines 57-63) *)

(** C7: when [win_size] is even or larger than [blk_rows], the call prints a
    message and returns at once: no dataset is opened or created, no block is
    read or written and there is no output raster. *)
Theorem C7_invalid_config_rejected in_band win_size t blk_rows :
  win_size mod 2 = 0 \/ win_size > blk_rows ->
  exists msg,
    local_defor_rate in_band win_size t blk_rows = Run [EvPrint msg] None Returned.
Proof.
  intros H. unfold local_defor_rate.
  destruct (Z.eqb_spec (win_size mod 2) 0); [eauto|].
  destruct (Z.gtb_spec win_size blk_rows); [eauto|].
  lia.
Qed.

Lemma C7_invalid_config_rejected_witness :
  exists msg,
    local_defor_rate Examples.forest3 4 5%R 3 = Run [EvPrint msg] None Returned.
Proof.
  apply (C7_invalid_config_rejected _ 4 5%R 3). left. reflexivity.
Defined.

(** ** Arrays: lookup after building and updating *)

Section ArrayFacts.
Import Array2.
Context {A : Type}.
Implicit Types (a b : list (list A)) (r c nr nc : nat).
Local Open Scope nat_scope.

Lemma rect_lookup nr nc a r row :
  rect nr nc a -> a !! r = Some row -> r < nr /\ length row = nc.
Proof.
  intros [Hl Hf] Hr. split.
  - rewrite <- Hl. by eapply lookup_lt_Some.
  - by eapply (Forall_lookup_1 _ _ _ _ Hf).
Qed.

Lemma get_Some_bounds nr nc a r c v :
  rect nr nc a -> get a r c = Some v -> r < nr /\ c < nc.
Proof.
  intros Hrect. unfold get. destruct (a !! r) as [row|] eqn:Hr; [|done].
  intros Hc. destruct (rect_lookup _ _ _ _ _ Hrect Hr) as [? <-].
  split; [done|]. by eapply lookup_lt_Some.
Qed.

Lemma get_is_Some nr nc a r c :
  rect nr nc a -> r < nr -> c < nc -> is_Some (get a r c).
Proof.
  intros Hrect Hr Hc. unfold get.
  destruct (lookup_lt_is_Some_2 a r) as [row Hrow]; [destruct Hrect; lia|].
  rewrite Hrow. apply lookup_lt_is_Some_2.
  destruct (rect_lookup _ _ _ _ _ Hrect Hrow). lia.
Qed.

Lemma rect_ext nr nc a b :
  rect nr nc a -> rect nr nc b ->
  (forall r c, r < nr -> c < nc -> get a r c = get b r c) -> a = b.
Proof.
  intros Ha Hb Hget. apply list_eq. intros r.
  destruct (decide (r < nr)) as [Hr|Hr].
  - destruct (lookup_lt_is_Some_2 a r) as [ra Hra]; [destruct Ha; lia|].
    destruct (lookup_lt_is_Some_2 b r) as [rb Hrb]; [destruct Hb; lia|].
    rewrite Hra, Hrb. f_equal. apply list_eq. intros c.
    destruct (rect_lookup _ _ _ _ _ Ha Hra) as [_ Hla].
    destruct (rect_lookup _ _ _ _ _ Hb Hrb) as [_ Hlb].
    destruct (decide (c < nc)) as [Hc|Hc].
    + specialize (Hget r c Hr Hc). unfold get in Hget. by rewrite Hra, Hrb in Hget.
    + rewrite !lookup_ge_None_2; [done|lia|lia].
  - rewrite !lookup_ge_None_2; [done|destruct Hb; lia|destruct Ha; lia].
Qed.

Lemma rect_tabulate nr nc (f : nat -> nat -> A) : rect nr nc (tabulate nr nc f).
Proof.
  split.
  - unfold tabulate. by rewrite length_map, length_seq.
  - unfold tabulate. apply Forall_fmap, Forall_forall. intros r _. simpl.
    by rewrite length_map, length_seq.
Qed.

Lemma get_tabulate nr nc (f : nat -> nat -> A) r c :
  r < nr -> c < nc -> get (tabulate nr nc f) r c = Some (f r c).
Proof.
  intros Hr Hc. unfold get, tabulate.
  rewrite list_lookup_fmap, lookup_seq_lt by done. simpl.
  by rewrite list_lookup_fmap, lookup_seq_lt.
Qed.

Lemma rect_full nr nc (v : A) : rect nr nc (full nr nc v).
Proof.
  split; unfold full.
  - apply length_replicate.
  - apply Forall_replicate, length_replicate.
Qed.

Lemma get_full nr nc (v : A) r c :
  r < nr -> c < nc -> get (full nr nc v) r c = Some v.
Proof.
  intros Hr Hc. unfold get, full. rewrite lookup_replicate_2 by done.
  by apply lookup_replicate_2.
Qed.

(** The shape read off a rectangular array is its shape, except that an
    array without rows has no columns either. *)
Lemma rect_shape nr nc a :
  rect nr nc a -> nrows a = nr /\ (0 < nr -> ncols a = nc) /\ rect (nrows a) (ncols a) a.
Proof.
  intros [Hl Hf]. unfold nrows, ncols. destruct a as [|row a']; simpl in *.
  - subst. repeat split; [lia|constructor].
  - inversion Hf; subst. repeat split; auto.
Qed.

Lemma rect_set_cell nr nc a r c v : rect nr nc a -> rect nr nc (set_cell a r c v).
Proof.
  intros [Hl Hf]. split; unfold set_cell.
  - by rewrite length_alter.
  - apply Forall_alter; [done|]. intros row _ Hrow. by rewrite length_insert.
Qed.

Lemma get_set_cell_eq nr nc a r c v :
  rect nr nc a -> r < nr -> c < nc -> get (set_cell a r c v) r c = Some v.
Proof.
  intros Hrect Hr Hc. unfold get, set_cell. rewrite list_lookup_alter_eq.
  destruct (lookup_lt_is_Some_2 a r) as [row Hrow]; [destruct Hrect; lia|].
  rewrite Hrow. simpl. apply list_lookup_insert_eq.
  destruct (rect_lookup _ _ _ _ _ Hrect Hrow). lia.
Qed.

Lemma get_set_cell_ne a r c v r' c' :
  (r, c) <> (r', c') -> get (set_cell a r c v) r' c' = get a r' c'.
Proof.
  intros Hne. unfold get, set_cell.
  destruct (decide (r = r')) as [->|Hr].
  - rewrite list_lookup_alter_eq. destruct (a !! r') as [row|]; [|done]. simpl.
    apply list_lookup_insert_ne. congruence.
  - by rewrite list_lookup_alter_ne.
Qed.

Lemma length_set_cells a w (f : nat -> nat -> A) :
  length (set_cells a w f) = length a.
Proof.
  unfold set_cells. revert a. induction w as [|rc w IH]; intros a; [done|].
  simpl. rewrite IH. unfold set_cell. apply length_alter.
Qed.

Lemma rect_set_cells nr nc a w (f : nat -> nat -> A) :
  rect nr nc a -> rect nr nc (set_cells a w f).
Proof.
  unfold set_cells. revert a. induction w as [|[r c] w IH]; intros a Ha; [done|].
  simpl. apply IH. by apply rect_set_cell.
Qed.

Lemma get_set_cells nr nc a w (f : nat -> nat -> A) r c :
  rect nr nc a -> r < nr -> c < nc ->
  get (set_cells a w f) r c =
  if decide ((r, c) ∈ w) then Some (f r c) else get a r c.
Proof.
  intros Ha Hr Hc. unfold set_cells. revert a Ha.
  induction w as [|[r1 c1] w IH]; intros a Ha.
  - destruct (decide ((r, c) ∈ [])) as [Hin|_]; [|done].
    by apply elem_of_nil in Hin.
  - change (foldl ?g a ((r1, c1) :: w)) with (foldl g (g a (r1, c1)) w).
    rewrite IH by (by apply rect_set_cell). cbn [fst snd].
    destruct (decide ((r, c) ∈ w)) as [Hin|Hnin];
      destruct (decide ((r, c) ∈ (r1, c1) :: w)) as [Hin'|Hnin']; try done.
    + exfalso. apply Hnin'. by apply list_elem_of_further.
    + apply elem_of_cons in Hin' as [[= -> ->]|?]; [|done].
      by eapply get_set_cell_eq.
    + apply get_set_cell_ne. intros [= -> ->]. apply Hnin', list_elem_of_here.
Qed.

Lemma cell_of_nat (d : A) a r c :
  cell d a (Z.of_nat r) (Z.of_nat c) = default d (get a r c).
Proof.
  unfold cell.
  destruct (Z.leb_spec 0 (Z.of_nat r)); [|lia].
  destruct (Z.leb_spec 0 (Z.of_nat c)); [|lia].
  simpl. by rewrite !Nat2Z.id.
Qed.

Lemma cell_in (d : A) a (r c : Z) :
  (0 <= r)%Z -> (0 <= c)%Z -> cell d a r c = default d (get a (Z.to_nat r) (Z.to_nat c)).
Proof.
  intros Hr Hc. unfold cell.
  destruct (Z.leb_spec 0 r); [|lia]. destruct (Z.leb_spec 0 c); [|lia]. done.
Qed.

Lemma cell_out (d : A) nr nc a (r c : Z) :
  rect nr nc a ->
  ~ (0 <= r < Z.of_nat nr /\ 0 <= c < Z.of_nat nc)%Z -> cell d a r c = d.
Proof.
  intros Hrect Hout. unfold cell.
  destruct (Z.leb_spec 0 r); [|done]. destruct (Z.leb_spec 0 c); [|done]. simpl.
  destruct (get a (Z.to_nat r) (Z.to_nat c)) as [v|] eqn:Hg; [|done].
  destruct (get_Some_bounds _ _ _ _ _ _ Hrect Hg). lia.
Qed.

Lemma cell_tabulate (d : A) nr nc (f : nat -> nat -> A) (r c : Z) :
  (0 <= r < Z.of_nat nr)%Z -> (0 <= c < Z.of_nat nc)%Z ->
  cell d (tabulate nr nc f) r c = f (Z.to_nat r) (Z.to_nat c).
Proof.
  intros Hr Hc. rewrite cell_in by lia. by rewrite get_tabulate by lia.
Qed.

End ArrayFacts.

Section WhereFacts.
Import Array2.
Local Open Scope nat_scope.

Lemma elem_of_np_where cond (a : list (list Z)) r c :
  (r, c) ∈ np_where cond a <-> exists v, get a r c = Some v /\ cond v = true.
Proof.
  unfold np_where, get. rewrite list_elem_of_join. split.
  - intros (l & Hin & Hl). apply elem_of_lookup_imap in Hl as (r' & row & -> & Hrow).
    apply list_elem_of_join in Hin as (l' & Hin & Hl').
    apply elem_of_lookup_imap in Hl' as (c' & v & -> & Hv).
    destruct (cond v) eqn:Hcond; [|by apply elem_of_nil in Hin].
    apply list_elem_of_singleton in Hin as [= -> ->].
    exists v. by rewrite Hrow.
  - intros (v & Hg & Hcond). destruct (a !! r) as [row|] eqn:Hrow; [|done].
    exists (mjoin (imap (fun c v => if cond v then [(r, c)] else []) row)).
    split; [|apply elem_of_lookup_imap; by exists r, row].
    apply list_elem_of_join. exists [(r, c)]. split; [apply list_elem_of_here|].
    apply elem_of_lookup_imap. exists c, v. by rewrite Hcond.
Qed.

(** Filling an array with [v0] and then storing [f r c] at the index pairs
    selected by [np.where] gives the entry-wise choice between the two. *)
Lemma set_cells_where {A} nr nc cond (a : list (list Z)) (v0 : A) f :
  rect nr nc a ->
  set_cells (full (nrows a) (ncols a) v0) (np_where cond a) f =
  tabulate nr nc (fun r c =>
    if cond (cell 0%Z a (Z.of_nat r) (Z.of_nat c)) then f r c else v0).
Proof.
  intros Ha. destruct (rect_shape _ _ _ Ha) as (Hnr & Hnc & _).
  destruct (decide (nr = 0)%nat) as [->|Hpos].
  - destruct Ha as [Hl _]. apply nil_length_inv in Hl. by subst.
  - rewrite Hnr, Hnc by lia.
    apply (rect_ext nr nc); [apply rect_set_cells, rect_full|apply rect_tabulate|].
    intros r c Hr Hc.
    rewrite (get_set_cells nr nc) by (done || apply rect_full).
    rewrite get_tabulate, get_full, cell_of_nat by done.
    destruct (get_is_Some _ _ _ _ _ Ha Hr Hc) as [v Hv]. rewrite Hv. simpl.
    destruct (decide ((r, c) ∈ np_where cond a)) as [Hin|Hnin].
    + apply elem_of_np_where in Hin as (v' & Hv' & Hcond).
      rewrite Hv in Hv'. injection Hv' as <-. by rewrite Hcond.
    + destruct (cond v) eqn:Hcond; [|done].
      exfalso. apply Hnin, elem_of_np_where. eauto.
Qed.

End WhereFacts.

(** ** Focal density filter *)

Section FocalFacts.
Import Array2 Focal.
Local Open Scope Q_scope.

Lemma sumQ_ext {X} (f g : X -> Q) l :
  (forall x, x ∈ l -> f x == g x) -> sumQ (map f l) == sumQ (map g l).
Proof.
  induction l as [|x l IH]; intros H; simpl; [reflexivity|].
  rewrite (H x) by apply list_elem_of_here.
  rewrite IH; [reflexivity|]. intros y Hy. by apply H, list_elem_of_further.
Qed.

Lemma sumQ_eq {X} (f g : X -> Q) l :
  (forall x, x ∈ l -> f x = g x) -> sumQ (map f l) = sumQ (map g l).
Proof.
  induction l as [|x l IH]; intros H; simpl; [done|].
  rewrite (H x) by apply list_elem_of_here.
  rewrite IH; [done|]. intros y Hy. by apply H, list_elem_of_further.
Qed.

Lemma sumZ_eq {X} (f g : X -> Z) l :
  (forall x, x ∈ l -> f x = g x) -> sumZ (map f l) = sumZ (map g l).
Proof.
  induction l as [|x l IH]; intros H; simpl; [done|].
  rewrite (H x) by apply list_elem_of_here.
  rewrite IH; [done|]. intros y Hy. by apply H, list_elem_of_further.
Qed.

Lemma sumQ_div {X} (f : X -> Q) w l :
  sumQ (map (fun x => f x / w) l) == sumQ (map f l) / w.
Proof.
  induction l as [|x l IH]; simpl.
  - unfold Qdiv. ring.
  - rewrite IH. unfold Qdiv. ring.
Qed.

Lemma sumQ_inject {X} (f : X -> Z) l :
  sumQ (map (fun x => inject_Z (f x)) l) == inject_Z (sumZ (map f l)).
Proof.
  induction l as [|x l IH]; simpl; [reflexivity|].
  by rewrite IH, inject_Z_plus.
Qed.

Lemma sumZ_zero {X} (f : X -> Z) l :
  (forall x, x ∈ l -> f x = 0%Z) -> sumZ (map f l) = 0%Z.
Proof.
  induction l as [|x l IH]; intros H; simpl; [done|].
  rewrite (H x) by apply list_elem_of_here.
  rewrite IH; [done|]. intros y Hy. by apply H, list_elem_of_further.
Qed.

Lemma sumZ_le {X} (f g : X -> Z) l :
  (forall x, x ∈ l -> (f x <= g x)%Z) -> (sumZ (map f l) <= sumZ (map g l))%Z.
Proof.
  induction l as [|x l IH]; intros H; simpl; [done|].
  pose proof (H x (list_elem_of_here _ _)).
  assert (sumZ (map f l) <= sumZ (map g l))%Z; [|lia].
  apply IH. intros y Hy. by apply H, list_elem_of_further.
Qed.

Lemma sumZ_nonneg {X} (f : X -> Z) l :
  (forall x, x ∈ l -> (0 <= f x)%Z) -> (0 <= sumZ (map f l))%Z.
Proof.
  induction l as [|x l IH]; intros H; simpl; [done|].
  pose proof (H x (list_elem_of_here _ _)).
  assert (0 <= sumZ (map f l))%Z; [|lia].
  apply IH. intros y Hy. by apply H, list_elem_of_further.
Qed.

(** A sum of non-negative terms is at least each of its terms. *)
Lemma sumZ_ge_term {X} (f : X -> Z) l x :
  (forall y, y ∈ l -> (0 <= f y)%Z) -> x ∈ l -> (f x <= sumZ (map f l))%Z.
Proof.
  induction l as [|y l IH]; intros H Hx; [by apply elem_of_nil in Hx|].
  simpl. pose proof (H y (list_elem_of_here _ _)).
  assert (0 <= sumZ (map f l))%Z.
  { apply sumZ_nonneg. intros z Hz. by apply H, list_elem_of_further. }
  apply elem_of_cons in Hx as [->|Hx]; [lia|].
  assert (f x <= sumZ (map f l))%Z; [|lia].
  apply IH; [|done]. intros z Hz. by apply H, list_elem_of_further.
Qed.

Lemma rect_map {X Y} (g : X -> Y) nr nc (a : list (list X)) :
  rect nr nc a -> rect nr nc (map (map g) a).
Proof.
  intros [Hl Hf]. split.
  - by rewrite length_map.
  - apply Forall_fmap. eapply Forall_impl; [done|]. intros row Hrow. simpl.
    by rewrite length_map.
Qed.

Lemma get_map {X Y} (g : X -> Y) (a : list (list X)) r c :
  get (map (map g) a) r c = g <$> get a r c.
Proof.
  unfold get. rewrite list_lookup_fmap. destruct (a !! r) as [row|]; [|done].
  simpl. apply list_lookup_fmap.
Qed.

Lemma cell_map {X Y} (g : X -> Y) d (a : list (list X)) r c :
  cell (g d) (map (map g) a) r c = g (cell d a r c).
Proof.
  unfold cell. destruct ((0 <=? r)%Z && (0 <=? c)%Z); [|done].
  rewrite get_map. by destruct (get a _ _).
Qed.

End FocalFacts.

Section FilterCells.
Import Array2 Focal.
Local Open Scope Q_scope.

Lemma tabulate_shape {X Y} nr nc (a : list (list X)) (f : nat -> nat -> Y) :
  rect nr nc a -> tabulate (nrows a) (ncols a) f = tabulate nr nc f.
Proof.
  intros Ha. destruct (rect_shape _ _ _ Ha) as (Hnr & Hnc & _).
  rewrite Hnr. destruct nr as [|nr']; [done|]. rewrite Hnc by lia. done.
Qed.

Lemma rect_uniform_filter1d size ax nr nc (a : list (list Q)) :
  rect nr nc a -> rect nr nc (uniform_filter1d size ax a).
Proof.
  intros Ha. unfold uniform_filter1d. rewrite (tabulate_shape nr nc) by done.
  apply rect_tabulate.
Qed.

Lemma rect_uniform_filter size nr nc (a : list (list Z)) :
  rect nr nc a -> rect nr nc (uniform_filter a size).
Proof.
  intros Ha. unfold uniform_filter. destruct (1 <? size)%Z.
  - by apply rect_uniform_filter1d, rect_uniform_filter1d, rect_map.
  - by apply rect_map.
Qed.

Lemma inject_Z_ne_0 ws : (1 <= ws)%Z -> ~ inject_Z ws == 0.
Proof. intros H. unfold Qeq, inject_Z. simpl. lia. Qed.

(** After the pass along axis 0, the entry in row [r] and any column [k]
    (0 beyond the array) is the column total over the window rows, divided
    by the size. *)
Lemma axis0_cell nr nc (a : list (list Z)) ws (r : nat) (k : Z) :
  rect nr nc a -> (r < nr)%nat ->
  cell 0 (uniform_filter1d ws Axis0 (map (map inject_Z) a)) (Z.of_nat r) k
  == inject_Z (column_total a ws (Z.of_nat r) k) / inject_Z ws.
Proof.
  intros Ha Hr. unfold uniform_filter1d.
  rewrite (tabulate_shape nr nc) by (by apply rect_map).
  destruct (decide (0 <= k < Z.of_nat nc)%Z) as [Hk|Hk].
  - rewrite cell_tabulate by lia. rewrite Nat2Z.id, Z2Nat.id by lia.
    unfold window_sum, column_total.
    rewrite <- sumQ_inject.
    apply Qdiv_comp; [|reflexivity].
    apply sumQ_ext. intros j _. change 0 with (inject_Z 0).
    by rewrite cell_map.
  - rewrite (cell_out _ nr nc) by (apply rect_tabulate || lia).
    unfold column_total. rewrite sumZ_zero.
    + unfold Qdiv. change (inject_Z 0) with 0. by rewrite Qmult_0_l.
    + intros j _. apply (cell_out _ nr nc); [done|lia].
Qed.

(** The filtered array, entry by entry: the window total divided by the
    squared size. *)
Lemma uniform_filter_cell nr nc (a : list (list Z)) ws (r c : nat) :
  rect nr nc a -> (1 <= ws)%Z -> (r < nr)%nat -> (c < nc)%nat ->
  cell 0 (uniform_filter a ws) (Z.of_nat r) (Z.of_nat c)
  == inject_Z (window_total a ws (Z.of_nat r) (Z.of_nat c)) / inject_Z (ws * ws).
Proof.
  intros Ha Hws Hr Hc. unfold uniform_filter.
  destruct (Z.ltb_spec 1 ws) as [Hgt|Hle].
  - unfold uniform_filter1d at 1.
    rewrite (tabulate_shape nr nc)
      by (by apply rect_uniform_filter1d, rect_map).
    rewrite cell_tabulate by lia. rewrite !Nat2Z.id.
    unfold window_sum.
    rewrite (sumQ_ext _ (fun k => inject_Z (column_total a ws (Z.of_nat r) k)
                                  / inject_Z ws))
      by (intros k _; by apply (axis0_cell nr nc)).
    rewrite sumQ_div, sumQ_inject. fold (window_total a ws (Z.of_nat r) (Z.of_nat c)).
    rewrite inject_Z_mult. field. by apply inject_Z_ne_0.
  - assert (ws = 1)%Z as -> by lia.
    change 0 with (inject_Z 0). rewrite cell_map.
    unfold window_total, column_total. simpl.
    rewrite !Z.add_0_r, !Z.sub_0_r. unfold Qdiv.
    change (/ inject_Z (1 * 1)) with 1. by rewrite Qmult_1_r.
Qed.

End FilterCells.

(** ** Mask builder *)

Section MaskFacts.
Import Array2 Masks.

Lemma defor_data_spec nr nc (in_data : list (list Z)) :
  rect nr nc in_data ->
  defor_data in_data =
  tabulate nr nc (fun r c =>
    if cell 0 in_data (Z.of_nat r) (Z.of_nat c) =? 1 then 1 else 0).
Proof. intros Ha. unfold defor_data. by rewrite (set_cells_where nr nc). Qed.

Lemma for_data_spec nr nc (in_data : list (list Z)) :
  rect nr nc in_data ->
  for_data in_data =
  tabulate nr nc (fun r c =>
    if 0 <? cell 0 in_data (Z.of_nat r) (Z.of_nat c) then 1 else 0).
Proof. intros Ha. unfold for_data, w. by rewrite (set_cells_where nr nc). Qed.

Lemma rect_defor_data nr nc (in_data : list (list Z)) :
  rect nr nc in_data -> rect nr nc (defor_data in_data).
Proof. intros Ha. rewrite (defor_data_spec nr nc) by done. apply rect_tabulate. Qed.

Lemma rect_for_data nr nc (in_data : list (list Z)) :
  rect nr nc in_data -> rect nr nc (for_data in_data).
Proof. intros Ha. rewrite (for_data_spec nr nc) by done. apply rect_tabulate. Qed.

(** The masks entry by entry, also beyond the array, where both are 0. *)
Lemma cell_defor_data nr nc (in_data : list (list Z)) (j k : Z) :
  rect nr nc in_data ->
  cell 0 (defor_data in_data) j k = if cell 0 in_data j k =? 1 then 1 else 0.
Proof.
  intros Ha. rewrite (defor_data_spec nr nc) by done.
  destruct (decide (0 <= j < Z.of_nat nr /\ 0 <= k < Z.of_nat nc)) as [[Hj Hk]|Hout].
  - rewrite cell_tabulate by done. by rewrite !Z2Nat.id by lia.
  - rewrite (cell_out _ nr nc) by (apply rect_tabulate || done).
    by rewrite (cell_out _ nr nc) by done.
Qed.

Lemma cell_for_data nr nc (in_data : list (list Z)) (j k : Z) :
  rect nr nc in_data ->
  cell 0 (for_data in_data) j k = if 0 <? cell 0 in_data j k then 1 else 0.
Proof.
  intros Ha. rewrite (for_data_spec nr nc) by done.
  destruct (decide (0 <= j < Z.of_nat nr /\ 0 <= k < Z.of_nat nc)) as [[Hj Hk]|Hout].
  - rewrite cell_tabulate by done. by rewrite !Z2Nat.id by lia.
  - rewrite (cell_out _ nr nc) by (apply rect_tabulate || done).
    by rewrite (cell_out _ nr nc) by done.
Qed.

(** The deforested mask lies below the ever-forested mask. *)
Lemma defor_le_for nr nc (in_data : list (list Z)) (j k : Z) :
  rect nr nc in_data ->
  0 <= cell 0 (defor_data in_data) j k <= cell 0 (for_data in_data) j k.
Proof.
  intros Ha. rewrite (cell_defor_data nr nc), (cell_for_data nr nc) by done.
  destruct (Z.eqb_spec (cell 0 in_data j k) 1) as [->|]; simpl; [lia|].
  destruct (0 <? cell 0 in_data j k); lia.
Qed.

End MaskFacts.

(** ** Counting the ones of a window *)

Section WindowCount.
Import Array2 Focal Reference.

Lemma sumZ_add {X} (g h : X -> Z) l :
  sumZ (map (fun y => g y + h y) l) = sumZ (map g l) + sumZ (map h l).
Proof. induction l as [|x l IH]; simpl; [done|]. rewrite IH. lia. Qed.

Lemma sumZ_swap {X Y} (f : X -> Y -> Z) l1 l2 :
  sumZ (map (fun x => sumZ (map (f x) l2)) l1) =
  sumZ (map (fun y => sumZ (map (fun x => f x y) l1)) l2).
Proof.
  induction l1 as [|x l1 IH]; simpl.
  - by rewrite sumZ_zero.
  - by rewrite sumZ_add, IH.
Qed.

Lemma count_row {Y} (P : Y -> bool) (l : list Y) :
  Z.of_nat (length (filter (fun y => P y = true) l)) =
  sumZ (map (fun y => if P y then 1 else 0) l).
Proof.
  induction l as [|y l IH]; [done|].
  rewrite filter_cons. simpl. destruct (decide (P y = true)) as [HP|HP].
  - rewrite HP. simpl. lia.
  - apply not_true_is_false in HP. rewrite HP. lia.
Qed.

Lemma count_pairs (P : Z * Z -> bool) (l1 l2 : list Z) :
  Z.of_nat (length (filter (fun rc => P rc = true)
                           (x ← l1; y ← l2; [(x, y)]))) =
  sumZ (map (fun x => sumZ (map (fun y => if P (x, y) then 1 else 0) l2)) l1).
Proof.
  induction l1 as [|x l1 IH]; [done|].
  rewrite bind_cons, filter_app, length_app, Nat2Z.inj_add, IH. simpl. f_equal.
  clear IH. induction l2 as [|y l2 IH2]; [done|].
  rewrite bind_cons. simpl. rewrite filter_cons. destruct (decide (P (x, y) = true)) as [HP|HP].
  - rewrite HP. simpl. lia.
  - apply not_true_is_false in HP. rewrite HP. lia.
Qed.

Lemma is_one_cell mask (j k : Z) :
  binary mask -> (if is_one mask (j, k) then 1 else 0) = cell 0 mask j k.
Proof.
  intros Hb. unfold is_one, cell. simpl.
  destruct ((0 <=? j) && (0 <=? k)); [|done]. simpl.
  destruct (get mask (Z.to_nat j) (Z.to_nat k)) as [v|] eqn:Hg; [|done].
  simpl. destruct (Hb _ _ _ Hg) as [-> | ->]; done.
Qed.

Lemma window_total_count mask ws (r c : Z) :
  binary mask -> 2 * (ws / 2) + 1 = ws ->
  window_total mask ws r c =
  Z.of_nat (length (filter (fun rc => is_one mask rc = true)
                           (window_cells ws r c))).
Proof.
  intros Hb Hodd. unfold window_cells. rewrite Hodd, count_pairs.
  unfold window_total, column_total. rewrite sumZ_swap.
  apply sumZ_eq. intros k _. apply sumZ_eq. intros j _.
  by rewrite is_one_cell.
Qed.

End WindowCount.

(** ** Rate transform *)

Section RateFacts.
Import Rate.
Local Open Scope R_scope.

Lemma Int_part_bounds x : IZR (Int_part x) <= x < IZR (Int_part x) + 1.
Proof. destruct (base_Int_part x). lra. Qed.

Lemma np_rint_bounds (a b : Z) x :
  IZR a <= x <= IZR b -> (a <= np_rint x <= b)%Z.
Proof.
  intros [Ha Hb]. unfold np_rint.
  pose proof (Int_part_bounds x) as [Hf1 Hf2]. set (f := Int_part x) in *.
  assert (a <= f)%Z.
  { apply Z.lt_succ_r, lt_IZR. rewrite succ_IZR. lra. }
  assert (f <= b)%Z by (apply le_IZR; lra).
  assert (~ x - IZR f < 1 / 2 -> (f + 1 <= b)%Z).
  { intros Hd. apply Z.le_succ_l, lt_IZR. lra. }
  destruct (Rlt_dec (x - IZR f) (1 / 2)) as [|Hd]; [lia|].
  assert (f + 1 <= b)%Z by auto.
  destruct (Rlt_dec (1 / 2) (x - IZR f)); [lia|].
  destruct (Z.even f); lia.
Qed.

Lemma np_rint_IZR (n : Z) : np_rint (IZR n) = n.
Proof.
  unfold np_rint.
  assert (Int_part (IZR n) = n) as ->.
  { unfold Int_part. rewrite <- (up_tech (IZR n) n); [lia|lra|].
    rewrite plus_IZR. lra. }
  destruct (Rlt_dec (IZR n - IZR n) (1 / 2)); [done|lra].
Qed.

Lemma np_power_unit x t : 0 <= x <= 1 -> 0 <= t -> 0 <= np_power x t <= 1.
Proof.
  intros [Hx0 Hx1] Ht. unfold np_power.
  destruct (Req_dec_T x 0); [destruct (Req_dec_T t 0); lra|].
  assert (0 < x) by lra. split.
  - left. apply exp_pos.
  - destruct (Req_dec_T t 0) as [->|].
    + rewrite Rpower_O by done. lra.
    + assert (Rpower 1 t = 1) as <-
        by (unfold Rpower; by rewrite ln_1, Rmult_0_r, exp_0).
      apply Rle_Rpower_l; lra.
Qed.

Lemma np_power_one t : np_power 1 t = 1.
Proof.
  unfold np_power. destruct (Req_dec_T 1 0); [lra|].
  unfold Rpower. by rewrite ln_1, Rmult_0_r, exp_0.
Qed.

Lemma np_power_zero t : 0 < t -> np_power 0 t = 0.
Proof.
  intros Ht. unfold np_power. destruct (Req_dec_T 0 0); [|lra].
  destruct (Req_dec_T t 0); [lra|done].
Qed.

(** On a positive base [np_power] is the real power [exp (t * ln x)]. *)
Lemma np_power_real x t : 0 < x -> np_power x t = exp (t * ln x).
Proof. intros Hx. unfold np_power. destruct (Req_dec_T x 0); [lra|done]. Qed.

Lemma div_unit a b : 0 <= a <= b -> 0 < b -> 0 <= a / b <= 1.
Proof.
  intros [Ha Hab] Hb. assert (0 < / b) by (by apply Rinv_0_lt_compat).
  unfold Rdiv. split.
  - apply Rmult_le_pos; lra.
  - replace 1 with (b * / b) by (field; lra).
    apply Rmult_le_compat_r; lra.
Qed.

Lemma rate_unit wd wf t :
  (0 <= wd)%Q -> (wd <= wf)%Q -> (0 < wf)%Q -> 0 <= t ->
  0 <= Q2R wd / Q2R wf <= 1 /\ 0 <= rate wd wf t <= 1.
Proof.
  intros H0 Hle Hpos Ht.
  apply Qle_Rle in H0, Hle. apply Qlt_Rlt in Hpos.
  rewrite RMicromega.Q2R_0 in H0, Hpos.
  assert (0 <= Q2R wd / Q2R wf <= 1) as Hp by (apply div_unit; lra).
  split; [done|]. unfold rate.
  pose proof (np_power_unit (1 - Q2R wd / Q2R wf) t ltac:(lra) Ht). lra.
Qed.

Lemma rate_code_range wd wf t :
  (0 <= wd)%Q -> (wd <= wf)%Q -> (0 < wf)%Q -> 0 <= t ->
  (0 <= rate_code wd wf t <= 10000)%Z.
Proof.
  intros H0 Hle Hpos Ht. unfold rate_code.
  destruct (rate_unit wd wf t H0 Hle Hpos Ht) as [_ Hr].
  apply np_rint_bounds. lra.
Qed.

Lemma rate_code_p0 wd wf t : Q2R wd / Q2R wf = 0 -> rate_code wd wf t = 0%Z.
Proof.
  intros Hp. unfold rate_code, rate. rewrite Hp, Rminus_0_r, np_power_one.
  replace (10000 * (1 - 1)) with (IZR 0) by lra. apply np_rint_IZR.
Qed.

Lemma rate_code_p1 wd wf t :
  Q2R wd / Q2R wf = 1 -> 0 < t -> rate_code wd wf t = 10000%Z.
Proof.
  intros Hp Ht. unfold rate_code, rate.
  rewrite Hp. replace (1 - 1) with 0 by lra. rewrite np_power_zero by done.
  replace (10000 * (1 - 0)) with (IZR 10000) by lra. apply np_rint_IZR.
Qed.



End RateFacts.

(** ** One block: masks, densities and codes together *)

Section BlockFacts.
Import Array2 Focal Masks Rate.

Lemma out_data_spec nr nc (in_data : list (list Z)) ws t :
  rect nr nc in_data ->
  out_data in_data ws t =
  tabulate nr nc (fun r c =>
    if 0 <? cell 0 in_data (Z.of_nat r) (Z.of_nat c)
    then rate_code (cell 0%Q (win_defor in_data ws) (Z.of_nat r) (Z.of_nat c))
                   (cell 0%Q (win_for in_data ws) (Z.of_nat r) (Z.of_nat c)) t
    else nodata).
Proof. intros Ha. unfold out_data, w. by rewrite (set_cells_where nr nc). Qed.

Lemma get_out_data nr nc (in_data : list (list Z)) ws t (r c : nat) :
  rect nr nc in_data -> (r < nr)%nat -> (c < nc)%nat ->
  get (out_data in_data ws t) r c =
  Some (if 0 <? cell 0 in_data (Z.of_nat r) (Z.of_nat c)
        then rate_code (cell 0%Q (win_defor in_data ws) (Z.of_nat r) (Z.of_nat c))
                       (cell 0%Q (win_for in_data ws) (Z.of_nat r) (Z.of_nat c)) t
        else nodata).
Proof.
  intros Ha Hr Hc. rewrite (out_data_spec nr nc) by done.
  by rewrite get_tabulate.
Qed.

(** The cells selected by [w] are those of positive class. *)
Lemma elem_of_w nr nc (in_data : list (list Z)) (r c : nat) :
  rect nr nc in_data ->
  (r, c) ∈ w in_data <->
  (r < nr)%nat /\ (c < nc)%nat /\ 0 < cell 0 in_data (Z.of_nat r) (Z.of_nat c).
Proof.
  intros Ha. unfold w. rewrite elem_of_np_where, cell_of_nat. split.
  - intros (v & Hv & Hpos). destruct (get_Some_bounds _ _ _ _ _ _ Ha Hv).
    rewrite Hv. simpl. apply Z.ltb_lt in Hpos. done.
  - intros (Hr & Hc & Hpos).
    destruct (get_is_Some _ _ _ _ _ Ha Hr Hc) as [v Hv].
    rewrite Hv in Hpos. simpl in Hpos. exists v. split; [done|]. by apply Z.ltb_lt.
Qed.

Lemma window_has_centre ws (x : Z) : 1 <= ws -> x ∈ seqZ (x - ws / 2) ws.
Proof.
  intros Hws. apply elem_of_seqZ.
  half_bounds ws. lia.
Qed.

Lemma window_total_bounds nr nc (in_data : list (list Z)) ws (r c : Z) :
  rect nr nc in_data ->
  0 <= window_total (defor_data in_data) ws r c
    <= window_total (for_data in_data) ws r c.
Proof.
  intros Ha. unfold window_total, column_total. split.
  - apply sumZ_nonneg. intros k _. apply sumZ_nonneg. intros j _.
    by apply (defor_le_for nr nc).
  - apply sumZ_le. intros k _. apply sumZ_le. intros j _.
    by apply (defor_le_for nr nc).
Qed.

Lemma window_total_centre nr nc (in_data : list (list Z)) ws (r c : Z) :
  rect nr nc in_data -> 1 <= ws ->
  cell 0 (for_data in_data) r c <= window_total (for_data in_data) ws r c.
Proof.
  intros Ha Hws.
  assert (forall j k, 0 <= cell 0 (for_data in_data) j k) as Hnn.
  { intros j k. pose proof (defor_le_for nr nc in_data j k Ha). lia. }
  etransitivity; [|unfold window_total; apply sumZ_ge_term with (x := c)].
  - unfold column_total.
    apply (sumZ_ge_term (fun j => cell 0 (for_data in_data) j c)); [auto|].
    by apply window_has_centre.
  - intros k _. unfold column_total. apply sumZ_nonneg. auto.
  - by apply window_has_centre.
Qed.

Lemma Qdiv_inject_le (a b w : Z) :
  a <= b -> 0 < w -> (inject_Z a / inject_Z w <= inject_Z b / inject_Z w)%Q.
Proof.
  intros Hab Hw. unfold Qdiv. apply Qmult_le_compat_r.
  - by rewrite <- Zle_Qle.
  - apply Qinv_le_0_compat. change 0%Q with (inject_Z 0). rewrite <- Zle_Qle. lia.
Qed.

(** The densities of a block at a cell inside it. *)
Lemma densities nr nc (in_data : list (list Z)) ws (r c : nat) :
  rect nr nc in_data -> 1 <= ws -> (r < nr)%nat -> (c < nc)%nat ->
  let wd := cell 0%Q (win_defor in_data ws) (Z.of_nat r) (Z.of_nat c) in
  let wf := cell 0%Q (win_for in_data ws) (Z.of_nat r) (Z.of_nat c) in
  (0 <= wd)%Q /\ (wd <= wf)%Q /\
  (0 < cell 0 in_data (Z.of_nat r) (Z.of_nat c) ->
   (1 / inject_Z (ws * ws) <= wf)%Q /\ (0 < wf)%Q) /\
  ((wf == 0)%Q -> cell 0 in_data (Z.of_nat r) (Z.of_nat c) <= 0).
Proof.
  intros Ha Hws Hr Hc wd wf.
  assert (0 < ws * ws) as Hsq by nia.
  pose proof (uniform_filter_cell nr nc (defor_data in_data) ws r c
                (rect_defor_data _ _ _ Ha) Hws Hr Hc) as Hd.
  pose proof (uniform_filter_cell nr nc (for_data in_data) ws r c
                (rect_for_data _ _ _ Ha) Hws Hr Hc) as Hf.
  fold (win_defor in_data ws) in Hd. fold (win_for in_data ws) in Hf.
  fold wd in Hd. fold wf in Hf.
  pose proof (window_total_bounds nr nc in_data ws (Z.of_nat r) (Z.of_nat c) Ha)
    as [Hd0 Hdf].
  pose proof (window_total_centre nr nc in_data ws (Z.of_nat r) (Z.of_nat c) Ha Hws)
    as Hcen.
  rewrite (cell_for_data nr nc) in Hcen by done.
  set (Td := window_total (defor_data in_data) ws (Z.of_nat r) (Z.of_nat c)) in *.
  set (Tf := window_total (for_data in_data) ws (Z.of_nat r) (Z.of_nat c)) in *.
  assert (inject_Z 0 / inject_Z (ws * ws) == 0)%Q as H0
    by (unfold Qdiv; apply Qmult_0_l).
  repeat split.
  - rewrite Hd, <- H0. by apply Qdiv_inject_le.
  - rewrite Hd, Hf. by apply Qdiv_inject_le.
  - rewrite Hf. apply (Qdiv_inject_le 1); [|done].
    destruct (0 <? cell 0 in_data (Z.of_nat r) (Z.of_nat c)) eqn:E; [lia|].
    apply Z.ltb_ge in E. lia.
  - eapply Qlt_le_trans with (y := (inject_Z 1 / inject_Z (ws * ws))%Q).
    + apply Qlt_shift_div_l.
      * change 0%Q with (inject_Z 0). by rewrite <- Zlt_Qlt.
      * rewrite Qmult_0_l. done.
    + rewrite Hf. apply Qdiv_inject_le; [|done].
      destruct (0 <? cell 0 in_data (Z.of_nat r) (Z.of_nat c)) eqn:E; [lia|].
      apply Z.ltb_ge in E. lia.
  - intros Hz. destruct (Z.ltb_spec 0 (cell 0 in_data (Z.of_nat r) (Z.of_nat c)))
      as [Hpos|]; [|done].
    exfalso. rewrite Hf in Hz.
    assert (inject_Z 1 / inject_Z (ws * ws) <= inject_Z Tf / inject_Z (ws * ws))%Q
      as Hle by (apply Qdiv_inject_le; lia).
    rewrite Hz in Hle. revert Hle. apply Qlt_not_le.
    apply Qlt_shift_div_l.
    + change 0%Q with (inject_Z 0). by rewrite <- Zlt_Qlt.
    + rewrite Qmult_0_l. done.
Qed.

End BlockFacts.

(** ** One block in binary64 *)

Section Binary64Facts.
Import Array2 Masks Rate.

(** The cells of the output block computed in binary64: the converted code
    at the cells of positive class, the sentinel elsewhere. *)
Lemma get_out_data64 nr nc (in_data : list (list Z)) v power ws (r c : nat) :
  rect nr nc in_data -> (r < nr)%nat -> (c < nc)%nat ->
  get (Binary64.out_data v power in_data ws) r c =
  Some (if 0 <? cell 0 in_data (Z.of_nat r) (Z.of_nat c)
        then Binary64.astype_int
               (Binary64.rate_code power
                  (cell PrimFloat.nan (Binary64.win_defor v in_data ws)
                        (Z.of_nat r) (Z.of_nat c))
                  (cell PrimFloat.nan (Binary64.win_for v in_data ws)
                        (Z.of_nat r) (Z.of_nat c)))
        else Some nodata).
Proof.
  intros Ha Hr Hc. unfold Binary64.out_data, w.
  rewrite (set_cells_where nr nc) by done. by rewrite get_tabulate.
Qed.

End Binary64Facts.

(** ** The claims about one block *)

Section BlockClaims.
Import Array2 Focal Masks Rate Examples.

(** The block that the loop reads first from [tall] with [win_size = 3] and
    [blk_rows = 3]. *)
Example tall_first_block :
  Planner.yoff 3 0 = 0 /\ Planner.rows 8 3 3 0 = 5 /\
  Gdal.ReadAsArray tall 0 5 = Some tall_block0.
Proof. repeat split. Qed.

(** C2, counterexample: in the first block of [tall] with [win_size = 3] the
    cell (2, 0) has forested neighbours, so its ever-forested density is
    positive, yet its own class is 0 and the output there is the sentinel
    65535, in the block and in the raster that the call leaves. *)
Lemma C2_forest_nearby_still_nodata :
  rect 5 2 tall_block0 /\
  (0 < cell 0 (win_for tall_block0 3) (Z.of_nat 2) (Z.of_nat 0))%Q /\
  get (out_data tall_block0 3 5%R) 2 0 = Some 65535 /\
  exists out, out_band (local_defor_rate tall 3 5%R 3) = Some out /\
              get out 2 0 = Some 65535.
Proof.
  split; [rect_literal|].
  split; [done|]. split; [done|].
  eexists. split; reflexivity.
Qed.

(** C2, as amended: whether the output is defined depends on the cell's own
    class.  A cell of positive class is one of the index pairs of [w], its
    window holds at least one cell of positive class, so that the exact
    window mean [win_for] is positive, and the output there is not 65535.
    A cell whose class is not positive is not in [w] and its output is
    65535 whatever the density, in exact arithmetic and in binary64 with
    either form of the filter and any power function. *)
Theorem C2_defined_where_class_positive nr nc (in_data : list (list Z)) ws t
    (r c : nat) :
  rect nr nc in_data -> 1 <= ws -> (0 <= t)%R -> (r < nr)%nat -> (c < nc)%nat ->
  (0 < cell 0 in_data (Z.of_nat r) (Z.of_nat c) ->
   (r, c) ∈ w in_data /\
   1 <= window_total (for_data in_data) ws (Z.of_nat r) (Z.of_nat c) /\
   (0 < cell 0 (win_for in_data ws) (Z.of_nat r) (Z.of_nat c))%Q /\
   get (out_data in_data ws t) r c <> Some nodata) /\
  (cell 0 in_data (Z.of_nat r) (Z.of_nat c) <= 0 ->
   ((r, c) ∉ w in_data) /\
   get (out_data in_data ws t) r c = Some nodata /\
   forall v power,
     get (Binary64.out_data v power in_data ws) r c = Some (Some nodata)).
Proof.
  intros Ha Hws Ht Hr Hc. rewrite (get_out_data nr nc) by done.
  destruct (densities nr nc in_data ws r c Ha Hws Hr Hc) as (Hd0 & Hdf & Hpos & _).
  split.
  - intros Hcls. destruct (Hpos Hcls) as [_ Hwf].
    split; [by apply (elem_of_w nr nc)|].
    split.
    { pose proof (window_total_centre nr nc in_data ws (Z.of_nat r) (Z.of_nat c)
                    Ha Hws) as Hcen.
      rewrite (cell_for_data nr nc) in Hcen by done.
      destruct (Z.ltb_spec 0 (cell 0 in_data (Z.of_nat r) (Z.of_nat c))); lia. }
    split; [done|].
    destruct (Z.ltb_spec 0 (cell 0 in_data (Z.of_nat r) (Z.of_nat c))); [|lia].
    pose proof (rate_code_range _ _ t Hd0 Hdf Hwf Ht). unfold nodata.
    intros [= Heq]. lia.
  - intros Hcls.
    split; [rewrite (elem_of_w nr nc) by done; lia|].
    split.
    + destruct (Z.ltb_spec 0 (cell 0 in_data (Z.of_nat r) (Z.of_nat c))); [lia|done].
    + intros v power. rewrite (get_out_data64 nr nc) by done.
      destruct (Z.ltb_spec 0 (cell 0 in_data (Z.of_nat r) (Z.of_nat c))); [lia|done].
Qed.

Lemma C2_defined_where_class_positive_witness :
  (0 < cell 0 tall_block0 (Z.of_nat 2) (Z.of_nat 1) ->
   (2%nat, 1%nat) ∈ w tall_block0 /\
   1 <= window_total (for_data tall_block0) 3 (Z.of_nat 2) (Z.of_nat 1) /\
   (0 < cell 0 (win_for tall_block0 3) (Z.of_nat 2) (Z.of_nat 1))%Q /\
   get (out_data tall_block0 3 5%R) 2 1 <> Some nodata) /\
  (cell 0 tall_block0 (Z.of_nat 2) (Z.of_nat 1) <= 0 ->
   ((2%nat, 1%nat) ∉ w tall_block0) /\
   get (out_data tall_block0 3 5%R) 2 1 = Some nodata /\
   forall v power,
     get (Binary64.out_data v power tall_block0 3) 2 1 = Some (Some nodata)).
Proof.
  apply (C2_defined_where_class_positive 5 2 tall_block0 3 5%R 2 1).
  - rect_literal.
  - lia.
  - lra.
  - lia.
  - lia.
Defined.

(** C4: at a cell of a block whose ever-forested density is 0 the output is
    exactly 65535; the deforested density plays no part and nothing is
    divided there. *)
Theorem C4_zero_forest_gives_nodata nr nc (in_data : list (list Z)) ws t
    (r c : nat) :
  rect nr nc in_data -> 1 <= ws -> (r < nr)%nat -> (c < nc)%nat ->
  (cell 0 (win_for in_data ws) (Z.of_nat r) (Z.of_nat c) == 0)%Q ->
  get (out_data in_data ws t) r c = Some 65535 /\ (r, c) ∉ w in_data.
Proof.
  intros Ha Hws Hr Hc Hz.
  destruct (densities nr nc in_data ws r c Ha Hws Hr Hc) as (_ & _ & _ & Hcls).
  specialize (Hcls Hz). split.
  - rewrite (get_out_data nr nc) by done.
    destruct (Z.ltb_spec 0 (cell 0 in_data (Z.of_nat r) (Z.of_nat c))); [lia|done].
  - rewrite (elem_of_w nr nc) by done. lia.
Qed.

Lemma C4_zero_forest_gives_nodata_witness :
  get (out_data bare 1 5%R) 0 0 = Some 65535 /\
  (0%nat, 0%nat) ∉ w bare.
Proof.
  apply (C4_zero_forest_gives_nodata 3 2 bare 1 5%R 0 0).
  - rect_literal.
  - lia.
  - lia.
  - lia.
  - reflexivity.
Defined.

(** C8, as amended: the quotient is taken exactly at the cells of [w]; at
    each of them the window holds at least one cell of positive class, the
    cell itself, so the exact window mean [win_for] is positive and the
    divisor is not zero.  The bound [1 / win_size ** 2] is not claimed of
    the value the program divides by: it holds of the exact mean and fails
    of the double that SciPy returns
    (see [C8_double_density_below_one_cell]). *)
Theorem C8_divisor_positive nr nc (in_data : list (list Z)) ws (r c : nat) :
  rect nr nc in_data -> 1 <= ws -> (r, c) ∈ w in_data ->
  1 <= window_total (for_data in_data) ws (Z.of_nat r) (Z.of_nat c) /\
  (0 < cell 0 (win_for in_data ws) (Z.of_nat r) (Z.of_nat c))%Q /\
  Q2R (cell 0%Q (win_for in_data ws) (Z.of_nat r) (Z.of_nat c)) <> 0%R.
Proof.
  intros Ha Hws Hin. apply (elem_of_w nr nc) in Hin as (Hr & Hc & Hcls); [|done].
  destruct (densities nr nc in_data ws r c Ha Hws Hr Hc) as (_ & _ & Hpos & _).
  destruct (Hpos Hcls) as [_ H2]. split; [|split; [done|]].
  - pose proof (window_total_centre nr nc in_data ws (Z.of_nat r) (Z.of_nat c)
                  Ha Hws) as Hcen.
    rewrite (cell_for_data nr nc) in Hcen by done.
    destruct (Z.ltb_spec 0 (cell 0 in_data (Z.of_nat r) (Z.of_nat c))); lia.
  - apply Qlt_Rlt in H2. rewrite RMicromega.Q2R_0 in H2. lra.
Qed.

Lemma C8_divisor_positive_witness :
  1 <= window_total (for_data tall_block0) 3 (Z.of_nat 4) (Z.of_nat 0) /\
  (0 < cell 0 (win_for tall_block0 3) (Z.of_nat 4) (Z.of_nat 0))%Q /\
  Q2R (cell 0%Q (win_for tall_block0 3) (Z.of_nat 4) (Z.of_nat 0)) <> 0%R.
Proof.
  apply (C8_divisor_positive 5 2 tall_block0 3 4 0).
  - rect_literal.
  - lia.
  - apply (elem_of_w 5 2); [rect_literal|].
    repeat split; lia.
Defined.



(** C6: for a binary mask and an odd window size, the filtered value at a
    cell of the array is the number of ones among the cells of the window
    centred there that lie inside the array, divided by the squared window
    size; cells of the window beyond the array add nothing and the divisor
    stays the full window area. *)
Theorem C6_focal_density_zero_padded nr nc (mask : list (list Z)) ws (r c : nat) :
  rect nr nc mask -> binary mask -> 1 <= ws -> ws mod 2 = 1 ->
  (r < nr)%nat -> (c < nc)%nat ->
  (cell 0 (uniform_filter mask ws) (Z.of_nat r) (Z.of_nat c)
   == Reference.focal_density mask ws (Z.of_nat r) (Z.of_nat c))%Q.
Proof.
  intros Ha Hb Hws Hodd Hr Hc.
  rewrite (uniform_filter_cell nr nc) by done.
  unfold Reference.focal_density.
  rewrite window_total_count; [reflexivity|done|].
  destruct (odd_half ws Hws Hodd) as [Hh _]. unfold Planner.extra_lines in Hh. lia.
Qed.

Lemma binary_diagonal : binary diagonal.
Proof.
  intros r c v H.
  destruct r as [|[|r]]; destruct c as [|[|c]]; simpl in H;
    try discriminate; injection H as <-; auto.
Qed.

Lemma C6_focal_density_zero_padded_witness :
  (cell 0 (uniform_filter diagonal 3) (Z.of_nat 0) (Z.of_nat 0)
   == Reference.focal_density diagonal 3 (Z.of_nat 0) (Z.of_nat 0))%Q.
Proof.
  apply (C6_focal_density_zero_padded 2 2 diagonal 3 0 0).
  - rect_literal.
  - apply binary_diagonal.
  - lia.
  - reflexivity.
  - lia.
  - lia.
Defined.

(** The corner of [diagonal] sees two ones in its window of nine cells, four
    of which lie inside the array: the density is 2/9, not 2/4. *)
Example corner_density :
  (Reference.focal_density diagonal 3 0 0 == 2 # 9)%Q /\
  (cell 0 (uniform_filter diagonal 3) 0 0 == 2 # 9)%Q.
Proof. split; reflexivity. Qed.

End BlockClaims.

(** ** The claims that depend on the rounding of the doubles *)

Section Binary64Claims.
Import Array2 Focal Masks Rate Examples.
Import (notations) PrimFloat.

(** The first block read from [sparse] with [win_size = 3] and
    [blk_rows = 3] is the whole grid, and so is the first block read from
    [clearing] with [win_size = 7] and [blk_rows = 7]. *)
Example sparse_first_block :
  Planner.yoff 3 0 = 0 /\ Planner.rows 5 3 3 0 = 5 /\
  Gdal.ReadAsArray sparse 0 5 = Some sparse.
Proof. repeat split. Qed.

Example clearing_first_block :
  Planner.yoff 7 0 = 0 /\ Planner.rows 13 7 7 0 = 13 /\
  Gdal.ReadAsArray clearing 0 13 = Some clearing.
Proof. repeat split. Qed.

(** C8, counterexample: in [sparse] with [win_size = 3] the cell (3, 3) is
    a cell of [w] whose window holds exactly one cell of positive class, so
    the exact density is 1/9; the double that the running sum yields there
    is positive but strictly below the double [1 / 9], with either form of
    SciPy's routine (0.11111111111111109 and 0.11111111111111105 against
    0.1111111111111111). *)
Lemma C8_double_density_below_one_cell :
  (3%nat, 3%nat) ∈ w sparse /\
  window_total (for_data sparse) 3 3 3 = 1 /\
  (let wf := cell PrimFloat.nan
               (Binary64.win_for Binary64.SumThenDivide sparse 3) 3 3 in
   (0 <? wf)%float = true /\ (wf <? 1 / 9)%float = true) /\
  (let wf := cell PrimFloat.nan
               (Binary64.win_for Binary64.DivideThenSum sparse 3) 3 3 in
   (0 <? wf)%float = true /\ (wf <? 1 / 9)%float = true).
Proof.
  split.
  - apply (elem_of_w 5 4); [rect_literal|]. repeat split; lia.
  - repeat split; vm_compute; reflexivity.
Qed.






End Binary64Claims.

(** ** A block against the whole grid *)

Section BlockTransparency.
Import Array2 Focal Masks Rate.

Lemma rect_take_drop {X} nr nc (a : list (list X)) (yoff rows : nat) :
  rect nr nc a -> (yoff + rows <= nr)%nat -> rect rows nc (take rows (drop yoff a)).
Proof.
  intros [Hl Hf] Hle. split.
  - rewrite length_take, length_drop. lia.
  - by apply Forall_take, Forall_drop.
Qed.

Lemma get_take_drop {X} (a : list (list X)) (yoff rows j c : nat) :
  (j < rows)%nat -> get (take rows (drop yoff a)) j c = get a (yoff + j) c.
Proof. intros Hj. unfold get. by rewrite lookup_take_lt, lookup_drop. Qed.

(** An entry of the zero-extended block is the entry of the zero-extended
    grid [yoff] rows further down, for a row inside the block, for a row
    above a block that starts at the top of the grid and for a row below a
    block that ends at the bottom of the grid. *)
Lemma cell_block nr nc (a : list (list Z)) (yoff rows : nat) (j k : Z) :
  rect nr nc a -> (yoff + rows <= nr)%nat ->
  (0 <= j < Z.of_nat rows) \/ (j < 0 /\ yoff = 0%nat) \/
    (Z.of_nat rows <= j /\ (yoff + rows = nr)%nat) ->
  cell 0 (take rows (drop yoff a)) j k = cell 0 a (Z.of_nat yoff + j) k.
Proof.
  intros Ha Hle Hj.
  pose proof (rect_take_drop nr nc a yoff rows Ha Hle) as Hb.
  destruct (decide (0 <= k < Z.of_nat nc)) as [Hk|Hk].
  - destruct Hj as [Hin|[[Hneg ->]|[Hbig Hend]]].
    + rewrite !cell_in by lia. rewrite get_take_drop by lia.
      do 2 f_equal. lia.
    + rewrite (cell_out _ rows nc) by (done || lia).
      by rewrite (cell_out _ nr nc) by (done || lia).
    + rewrite (cell_out _ rows nc) by (done || lia).
      by rewrite (cell_out _ nr nc) by (done || lia).
  - rewrite (cell_out _ rows nc) by (done || lia).
    by rewrite (cell_out _ nr nc) by (done || lia).
Qed.

Lemma window_sum_shift (f g : Z -> Q) (d start size : Z) :
  (forall j, start <= j < start + size -> f j = g (d + j)) ->
  window_sum f start size = window_sum g (d + start) size.
Proof.
  intros H. unfold window_sum. rewrite <- fmap_add_seqZ.
  change (map g (Z.add d <$> seqZ start size))
    with (g <$> (Z.add d <$> seqZ start size)).
  rewrite <- list_fmap_compose. apply sumQ_eq.
  intros j Hj. apply elem_of_seqZ in Hj. simpl. by apply H.
Qed.

(** The filtered block agrees with the filtered grid wherever the rows of
    the window agree. *)
Lemma uniform_filter_block rows nr nc (ab af : list (list Z)) ws (yoff q c : nat) :
  rect rows nc ab -> rect nr nc af -> 1 <= ws ->
  (q < rows)%nat -> (yoff + q < nr)%nat -> (c < nc)%nat ->
  (forall j k, Z.of_nat q - ws / 2 <= j < Z.of_nat q - ws / 2 + ws ->
     cell 0 ab j k = cell 0 af (Z.of_nat yoff + j) k) ->
  cell 0%Q (uniform_filter ab ws) (Z.of_nat q) (Z.of_nat c) =
  cell 0%Q (uniform_filter af ws) (Z.of_nat (yoff + q)) (Z.of_nat c).
Proof.
  intros Hab Haf Hws Hq Hyq Hc Hwin. unfold uniform_filter.
  assert (forall j k, Z.of_nat q - ws / 2 <= j < Z.of_nat q - ws / 2 + ws ->
     cell 0%Q (map (map inject_Z) ab) j k =
     cell 0%Q (map (map inject_Z) af) (Z.of_nat yoff + j) k) as HwinQ.
  { intros j k Hj. change 0%Q with (inject_Z 0). rewrite !cell_map. f_equal. auto. }
  destruct (Z.ltb_spec 1 ws) as [Hgt|Hle].
  - unfold uniform_filter1d at 1 3.
    rewrite (tabulate_shape rows nc) by (by apply rect_uniform_filter1d, rect_map).
    rewrite (tabulate_shape nr nc) by (by apply rect_uniform_filter1d, rect_map).
    rewrite !cell_tabulate by lia. rewrite !Nat2Z.id. f_equal.
    unfold window_sum. apply sumQ_eq. intros k _.
    unfold uniform_filter1d.
    rewrite (tabulate_shape rows nc) by (by apply rect_map).
    rewrite (tabulate_shape nr nc) by (by apply rect_map).
    destruct (decide (0 <= k < Z.of_nat nc)) as [Hk|Hk].
    + rewrite !cell_tabulate by lia. rewrite !Nat2Z.id. f_equal.
      replace (Z.of_nat (yoff + q) - ws / 2)
        with (Z.of_nat yoff + (Z.of_nat q - ws / 2)) by lia.
      apply window_sum_shift. intros j Hj. by apply HwinQ.
    + rewrite (cell_out _ rows nc) by (apply rect_tabulate || lia).
      by rewrite (cell_out _ nr nc) by (apply rect_tabulate || lia).
  - replace (Z.of_nat (yoff + q)) with (Z.of_nat yoff + Z.of_nat q) by lia.
    apply HwinQ.
    half_bounds ws. lia.
Qed.

(** A row of the output block equals the row of the single-pass output
    [yoff] rows further down when the rows of its window are inside the
    block or outside the grid. *)
Lemma block_row_transparent nr nc (in_band : list (list Z)) ws t
    (yoff rows q : nat) :
  rect nr nc in_band -> 1 <= ws -> (yoff + rows <= nr)%nat -> (q < rows)%nat ->
  (yoff = 0%nat \/ ws / 2 <= Z.of_nat q) ->
  ((yoff + rows = nr)%nat \/ Z.of_nat q - ws / 2 + ws <= Z.of_nat rows) ->
  out_data (take rows (drop yoff in_band)) ws t !! q =
  out_data in_band ws t !! (yoff + q)%nat.
Proof.
  intros Ha Hws Hle Hq Htop Hbot.
  pose proof (rect_take_drop nr nc in_band yoff rows Ha Hle) as Hb.
  set (in_data := take rows (drop yoff in_band)) in *.
  assert (forall j k, Z.of_nat q - ws / 2 <= j < Z.of_nat q - ws / 2 + ws ->
            cell 0 in_data j k = cell 0 in_band (Z.of_nat yoff + j) k) as Hwin.
  { intros j k Hj. apply (cell_block nr nc); [done|done|]. lia. }
  rewrite (out_data_spec rows nc in_data) by done.
  rewrite (out_data_spec nr nc in_band) by done.
  unfold tabulate. rewrite !list_lookup_fmap, !lookup_seq_lt by lia. simpl.
  f_equal. apply map_ext_in. intros c Hc. apply in_seq in Hc.
  assert (Z.of_nat q - ws / 2 <= Z.of_nat q < Z.of_nat q - ws / 2 + ws) as Hcen.
  { half_bounds ws. lia. }
  replace (cell 0 in_band (Z.of_nat (yoff + q)) (Z.of_nat c))
    with (cell 0 in_data (Z.of_nat q) (Z.of_nat c))
    by (rewrite Hwin by done; f_equal; lia).
  unfold win_defor, win_for.
  rewrite (uniform_filter_block rows nr nc (defor_data in_data)
             (defor_data in_band) ws yoff q c);
    [|by apply rect_defor_data|by apply rect_defor_data|done|lia|lia|lia|].
  - rewrite (uniform_filter_block rows nr nc (for_data in_data)
               (for_data in_band) ws yoff q c);
      [done|by apply rect_for_data|by apply rect_for_data|done|lia|lia|lia|].
    intros j k Hj.
    rewrite (cell_for_data rows nc), (cell_for_data nr nc) by done.
    by rewrite Hwin.
  - intros j k Hj.
    rewrite (cell_defor_data rows nc), (cell_defor_data nr nc) by done.
    by rewrite Hwin.
Qed.

End BlockTransparency.

(** ** The block loop against a single pass *)

Section Blocking.
Import Array2 Rate Planner.

Lemma blocks_loop_cons in_band ws t blk_rows i idx' out log :
  blocks_loop in_band ws t blk_rows (i :: idx') out log =
  match Gdal.ReadAsArray in_band (yoff ws i)
          (rows (Z.of_nat (nrows in_band)) blk_rows ws i) with
  | None =>
      Run (log ++ [EvRead (yoff ws i) (rows (Z.of_nat (nrows in_band)) blk_rows ws i)])
          (Some out) Raised
  | Some in_data =>
      let array := if yoff ws i =? 0 then out_data in_data ws t
                   else slice_from (extra_lines ws) (out_data in_data ws t) in
      let dest := if yoff ws i =? 0 then 0 else yoff ws i + extra_lines ws in
      let log' := log ++ [EvRead (yoff ws i) (rows (Z.of_nat (nrows in_band)) blk_rows ws i);
                          EvWrite dest (length array)] in
      match Gdal.WriteArray out array dest with
      | None => Run log' (Some out) Raised
      | Some out' => blocks_loop in_band ws t blk_rows idx' out' log'
      end
  end.
Proof. reflexivity. Qed.

Lemma rect_out_data nr nc (in_data : list (list Z)) ws t :
  rect nr nc in_data -> rect nr nc (out_data in_data ws t).
Proof. intros Ha. rewrite (out_data_spec nr nc) by done. apply rect_tabulate. Qed.

Lemma ReadAsArray_in_grid (band : list (list Z)) (yoff rows : Z) :
  0 <= yoff -> 1 <= rows -> yoff + rows <= Z.of_nat (length band) ->
  Gdal.ReadAsArray band yoff rows =
  Some (take (Z.to_nat rows) (drop (Z.to_nat yoff) band)).
Proof.
  intros H0 H1 H2. unfold Gdal.ReadAsArray.
  destruct (Z.leb_spec 0 yoff); [|lia]. destruct (Z.leb_spec 1 rows); [|lia].
  destruct (Z.leb_spec (yoff + rows) (Z.of_nat (length band))); [done|lia].
Qed.

Lemma WriteArray_in_grid (band array : list (list Z)) (yoff : Z) :
  0 <= yoff -> yoff + Z.of_nat (length array) <= Z.of_nat (length band) ->
  Gdal.WriteArray band array yoff = Some (list_inserts (Z.to_nat yoff) array band).
Proof.
  intros H0 H1. unfold Gdal.WriteArray.
  destruct (Z.leb_spec 0 yoff); [|lia].
  destruct (Z.leb_spec (yoff + Z.of_nat (length array)) (Z.of_nat (length band)));
    [done|lia].
Qed.

Lemma rect_inserts nr nc (band array : list (list Z)) (n i : nat) :
  rect nr nc band -> rect n nc array -> rect nr nc (list_inserts i array band).
Proof.
  intros [Hl Hf] [_ Hg]. split.
  - by rewrite length_inserts.
  - by apply Forall_inserts.
Qed.

Lemma rect_drop {X} nr nc (a : list (list X)) (n : nat) :
  rect nr nc a -> rect (nr - n) nc (drop n a).
Proof.
  intros [Hl Hf]. split.
  - rewrite length_drop. lia.
  - by apply Forall_drop.
Qed.

(** What the loop writes for a block that was read is what the planner
    says: [target_row] is the destination and [rows_written] the number of
    rows of the array passed to [WriteArray]. *)
Lemma write_matches_plan (in_band in_data : list (list Z)) ws t blk_rows i :
  Gdal.ReadAsArray in_band (yoff ws i)
    (rows (Z.of_nat (nrows in_band)) blk_rows ws i) = Some in_data ->
  (if yoff ws i =? 0 then 0 else yoff ws i + extra_lines ws) = target_row ws i /\
  Z.of_nat (length (if yoff ws i =? 0 then out_data in_data ws t
                    else slice_from (extra_lines ws) (out_data in_data ws t)))
  = rows_written (Z.of_nat (nrows in_band)) blk_rows ws i.
Proof.
  unfold Gdal.ReadAsArray, target_row, rows_written, nrows.
  set (rw := rows _ blk_rows ws i).
  destruct ((0 <=? yoff ws i) && (1 <=? rw)
            && (yoff ws i + rw <=? Z.of_nat (length in_band))) eqn:Hread; [|done].
  apply andb_prop in Hread as [Hread H3]. apply andb_prop in Hread as [H1 H2].
  apply Z.leb_le in H1, H2, H3. intros [= <-]. split; [done|].
  assert (length (out_data (take (Z.to_nat rw) (drop (Z.to_nat (yoff ws i)) in_band))
                           ws t) = Z.to_nat rw) as Hlen.
  { unfold out_data. rewrite length_set_cells. unfold full, nrows.
    rewrite length_replicate, length_take, length_drop. lia. }
  destruct (yoff ws i =? 0); [rewrite Hlen; lia|].
  unfold slice_from, slice_from_len.
  destruct (Z.leb_spec 0 (extra_lines ws)); rewrite length_drop, Hlen; lia.
Qed.

Section Step.
Context (nr nc : nat) (in_band : list (list Z)) (ws : Z) (t : R) (blk_rows : Z).
Hypothesis Hband : rect nr nc in_band.
Hypothesis Hvalid : valid_config (Z.of_nat nr) blk_rows ws.
Hypothesis Htall : blk_rows + 2 * (ws / 2) - 1 < Z.of_nat nr.

(** One turn of the loop: the block is read and written without error, and
    afterwards the rows above the next block hold their single-pass values. *)
Lemma block_step (k : nat) out log idx' :
  Z.of_nat k * blk_rows < Z.of_nat nr ->
  rect nr nc out ->
  (forall r : nat, Z.of_nat r < Z.of_nat k * blk_rows -> (r < nr)%nat ->
     out !! r = out_data in_band ws t !! r) ->
  exists out' log',
    blocks_loop in_band ws t blk_rows (Z.of_nat k * blk_rows :: idx') out log =
    blocks_loop in_band ws t blk_rows idx' out' log' /\
    rect nr nc out' /\
    (forall r : nat, Z.of_nat r < Z.of_nat (S k) * blk_rows -> (r < nr)%nat ->
       out' !! r = out_data in_band ws t !! r).
Proof.
  intros Hi Hout Hinv. pose proof Hvalid as (Hy & Hw & Hodd & Hb).
  destruct (odd_half ws Hw Hodd) as [Hh Hh0]. unfold extra_lines in Hh, Hh0.
  pose proof Hband as [Hlen _]. pose proof Hout as [Hlen' _].
  rewrite blocks_loop_cons. unfold nrows. rewrite Hlen.
  set (i := Z.of_nat k * blk_rows) in *.
  destruct (read_window_in_grid (Z.of_nat nr) blk_rows ws i (Z.of_nat k) Hvalid
              ltac:(lia) eq_refl Hi ltac:(unfold extra_lines; lia))
    as (Hy0 & Hr1 & Hyr).
  rewrite ReadAsArray_in_grid by lia.
  set (yo := yoff ws i) in *. set (rw := rows (Z.of_nat nr) blk_rows ws i) in *.
  set (in_data := take (Z.to_nat rw) (drop (Z.to_nat yo) in_band)).
  assert (rect (Z.to_nat rw) nc in_data) as Hblock
    by (apply (rect_take_drop nr nc); [done|lia]).
  pose proof (rect_out_data _ _ _ ws t Hblock) as Hob.
  pose proof Hob as [Hlo _].
  cbv zeta. unfold extra_lines.
  destruct (Nat.eq_dec k 0%nat) as [->|Hk].
  - (* the first block *)
    assert (yo = 0) as Hyo by (unfold yo, yoff, extra_lines, i; lia).
    assert (rw = blk_rows + 2 * (ws / 2)) as Hrw.
    { unfold rw, rows, extra_lines, i.
      destruct (Z.ltb_spec (Z.of_nat 0 * blk_rows + blk_rows + 2 * (ws / 2) - 1)
                           (Z.of_nat nr)); lia. }
    rewrite Hyo. change (0 =? 0) with true. cbv iota.
    rewrite WriteArray_in_grid by (rewrite ?Hlo; lia).
    eexists _, _. split; [reflexivity|]. split.
    + by eapply rect_inserts.
    + intros r Hr Hrn. change (Z.to_nat 0) with 0%nat.
      rewrite list_lookup_inserts by (rewrite ?Hlo; lia).
      rewrite Nat.sub_0_r. subst in_data. rewrite Hyo.
      change (Z.to_nat 0) with 0%nat.
      rewrite (block_row_transparent nr nc) by (done || lia). done.
  - (* a later block *)
    assert (blk_rows <= i) as Hge by (unfold i; nia).
    assert (yo = i - ws / 2) as Hyo by (unfold yo, yoff, extra_lines; lia).
    assert (rw = blk_rows + 2 * (ws / 2) \/ yo + rw = Z.of_nat nr) as Hrw.
    { unfold rw, rows, extra_lines. rewrite Hyo.
      destruct (Z.ltb_spec (i + blk_rows + 2 * (ws / 2) - 1) (Z.of_nat nr)); lia. }
    destruct (Z.eqb_spec yo 0) as [|_]; [lia|].
    unfold slice_from. destruct (Z.leb_spec 0 (ws / 2)); [|lia].
    assert (length (drop (Z.to_nat (ws / 2)) (out_data in_data ws t))
            = (Z.to_nat rw - Z.to_nat (ws / 2))%nat) as Hla
      by (by rewrite length_drop, Hlo).
    rewrite WriteArray_in_grid by (rewrite ?Hla; lia).
    eexists _, _. split; [reflexivity|]. split.
    + eapply rect_inserts; [done|]. by apply rect_drop.
    + intros r Hr Hrn. destruct (decide (Z.of_nat r < i)) as [Hlt|Hnlt].
      * rewrite list_lookup_inserts_lt by lia. by apply Hinv.
      * rewrite list_lookup_inserts by (rewrite ?Hla; lia).
        rewrite lookup_drop. subst in_data.
        rewrite (block_row_transparent nr nc) by (done || lia).
        f_equal. lia.
Qed.

Lemma blocks_loop_correct (m k0 : nat) out log :
  Z.of_nat (k0 + m) * blk_rows < Z.of_nat nr + blk_rows ->
  rect nr nc out ->
  (forall r : nat, Z.of_nat r < Z.of_nat k0 * blk_rows -> (r < nr)%nat ->
     out !! r = out_data in_band ws t !! r) ->
  exists out' log',
    blocks_loop in_band ws t blk_rows
      (map (fun k => Z.of_nat k * blk_rows) (seq k0 m)) out log =
    Run log' (Some out') Returned /\
    rect nr nc out' /\
    (forall r : nat, Z.of_nat r < Z.of_nat (k0 + m) * blk_rows -> (r < nr)%nat ->
       out' !! r = out_data in_band ws t !! r).
Proof.
  revert k0 out log. induction m as [|m IH]; intros k0 out log Hlast Hout Hinv.
  - exists out, (log ++ [EvFlush]). rewrite Nat.add_0_r. split; [done|]. by split.
  - pose proof Hvalid as (_ & Hw & _ & Hb).
    change (map (fun k => Z.of_nat k * blk_rows) (seq k0 (S m)))
      with (Z.of_nat k0 * blk_rows
              :: map (fun k => Z.of_nat k * blk_rows) (seq (S k0) m)).
    destruct (block_step k0 out log
                (map (fun k => Z.of_nat k * blk_rows) (seq (S k0) m)))
      as (out1 & log1 & -> & Hout1 & Hinv1); [nia|done|done|].
    replace (k0 + S m)%nat with (S k0 + m)%nat by lia.
    apply IH; [|done|done].
    replace (S k0 + m)%nat with (k0 + S m)%nat by lia. done.
Qed.

End Step.



End Blocking.

(** * Further properties of the code *)

(** ** The planner: size of the reads and progress reporting *)

Section PlannerMore.
Import Planner.

(** X1: for a valid configuration every block asks for at least one row and
    for at most [blk_rows + 2 * extra_lines] rows, plus [extra_lines - 1]
    more when the block takes the [else] branch of line 101 with a window
    wider than 3 cells. *)
Theorem X1_rows_bounded ysize blk_rows ws idx i :
  valid_config ysize blk_rows ws ->
  py_range ysize blk_rows = Some idx -> i ∈ idx ->
  1 <= rows ysize blk_rows ws i
    <= blk_rows + 2 * extra_lines ws + Z.max 0 (extra_lines ws - 1).
Proof.
  intros (Hy & Hw & Hodd & Hb) Hidx Hi.
  destruct (odd_half ws Hw Hodd) as [Hh Hh0].
  apply (elem_of_py_range ysize blk_rows idx i ltac:(lia) Hidx) in Hi
    as (k & Hk & -> & Hlt).
  unfold rows. set (h := extra_lines ws) in *.
  destruct (Z.ltb_spec (k * blk_rows + blk_rows + 2 * h - 1) ysize); lia.
Qed.

Lemma X1_rows_bounded_witness :
  1 <= rows 13 5 5 5 <= 5 + 2 * extra_lines 5 + Z.max 0 (extra_lines 5 - 1).
Proof.
  apply (X1_rows_bounded 13 5 5 [0; 5; 10] 5).
  - unfold valid_config. repeat split; try lia; reflexivity.
  - reflexivity.
  - apply list_elem_of_further, list_elem_of_here.
Defined.

(** The bound of X1 is reached: with [ysize = 13], [blk_rows = 5] and
    [win_size = 5] the block of index 5 reads 9 + 1 rows. *)
Example rows_bound_reached : rows 13 5 5 5 = 10 /\ 5 + 2 * extra_lines 5 = 9.
Proof. split; reflexivity. Qed.

Lemma length_py_range stop step idx :
  0 < step -> 0 <= stop -> py_range stop step = Some idx ->
  Z.of_nat (length idx) = (stop + step - 1) / step.
Proof.
  intros Hs H0. unfold py_range.
  destruct (Z.eqb_spec step 0); [lia|]. destruct (Z.ltb_spec 0 step); [|lia].
  intros [= <-]. rewrite length_map, length_seq.
  rewrite Z2Nat.id; [done|]. apply Z.div_pos; lia.
Qed.

(** X2: the progress bar is called once per block with [iter_block] running
    from 1 upwards, but [nblock] is the number of blocks only when
    [blk_rows] does not divide [ysize]; when it does, [nblock] is one more
    than the number of blocks and the last call reports [nblock - 1]. *)
Theorem X2_progress_overcounts ysize blk_rows idx :
  0 < blk_rows -> 0 <= ysize -> py_range ysize blk_rows = Some idx ->
  length (progress_calls ysize blk_rows) = length idx /\
  (forall k, (k < length idx)%nat ->
     progress_calls ysize blk_rows !! k
     = Some (nblock ysize blk_rows, Z.of_nat k + 1)) /\
  Z.of_nat (length idx)
  = nblock ysize blk_rows - (if ysize mod blk_rows =? 0 then 1 else 0).
Proof.
  intros Hb Hy Hidx. unfold progress_calls. rewrite Hidx.
  split; [apply length_imap|]. split.
  - intros k Hk. rewrite list_lookup_imap.
    destruct (lookup_lt_is_Some_2 idx k Hk) as [i ->]. done.
  - rewrite (length_py_range ysize blk_rows idx Hb Hy Hidx). unfold nblock.
    pose proof (Z.div_mod ysize blk_rows ltac:(lia)) as Hd.
    pose proof (Z.mod_pos_bound ysize blk_rows Hb) as Hm.
    set (q := ysize / blk_rows) in *. set (m := ysize mod blk_rows) in *.
    destruct (Z.eqb_spec m 0) as [Hm0|Hm0].
    + replace (ysize + blk_rows - 1) with (q * blk_rows + (blk_rows - 1)) by lia.
      rewrite Z.div_add_l by lia. rewrite Z.div_small by lia. lia.
    + replace (ysize + blk_rows - 1)
        with ((q + 1) * blk_rows + (m - 1)) by lia.
      rewrite Z.div_add_l by lia. rewrite Z.div_small by lia. lia.
Qed.

Lemma X2_progress_overcounts_witness :
  length (progress_calls 9 3) = length [0; 3; 6] /\
  (forall k, (k < length [0; 3; 6])%nat ->
     progress_calls 9 3 !! k = Some (nblock 9 3, Z.of_nat k + 1)) /\
  Z.of_nat (length [0; 3; 6]) = nblock 9 3 - (if 9 mod 3 =? 0 then 1 else 0).
Proof.
  apply (X2_progress_overcounts 9 3 [0; 3; 6]).
  - lia.
  - lia.
  - reflexivity.
Defined.

End PlannerMore.

(** ** The whole call: how it ends and what it leaves *)

Section RunFacts.
Import Array2 Rate Planner.

Lemma py_range_head stop step :
  0 < step -> 1 <= stop ->
  exists idx', py_range stop step = Some (0 :: idx').
Proof.
  intros Hs H1. unfold py_range.
  destruct (Z.eqb_spec step 0); [lia|]. destruct (Z.ltb_spec 0 step); [|lia].
  assert (1 <= (stop + step - 1) / step) as Hq
    by (apply Z.div_le_lower_bound; lia).
  destruct (Z.to_nat ((stop + step - 1) / step)) as [|m] eqn:Hm; [lia|].
  simpl. eauto.
Qed.

(** On a grid too short for the first block to end before the bottom, with a
    window of 3 cells or more, the first read leaves the grid. *)
Lemma small_grid_run nr nc (in_band : list (list Z)) ws t blk_rows :
  rect nr nc in_band -> valid_config (Z.of_nat nr) blk_rows ws ->
  3 <= ws -> Z.of_nat nr <= blk_rows + 2 * (ws / 2) - 1 ->
  local_defor_rate in_band ws t blk_rows =
  Run [EvOpen; EvCreate nc nr; EvRead 0 (Z.of_nat nr + ws / 2)]
      (Some (full nr nc 0)) Raised.
Proof.
  intros Hband Hvalid H3 Hsmall. pose proof Hvalid as (Hy & Hw & Hodd & Hb).
  destruct (rect_shape _ _ _ Hband) as (Hnr & Hnc & _).
  pose proof Hband as [Hlen _].
  assert (1 <= ws / 2) as Hh by (apply Z.div_le_lower_bound; lia).
  unfold local_defor_rate.
  destruct (Z.eqb_spec (ws mod 2) 0) as [|_]; [lia|].
  destruct (Z.gtb_spec ws blk_rows) as [|_]; [lia|].
  cbv zeta. rewrite Hnr, Hnc by lia.
  destruct (py_range_head (Z.of_nat nr) blk_rows ltac:(lia) Hy) as [idx' ->].
  rewrite blocks_loop_cons. unfold nrows. rewrite Hlen.
  assert (yoff ws 0 = 0) as -> by (unfold yoff, extra_lines; lia).
  assert (rows (Z.of_nat nr) blk_rows ws 0 = Z.of_nat nr + ws / 2) as ->.
  { unfold rows, extra_lines.
    destruct (Z.ltb_spec (0 + blk_rows + 2 * (ws / 2) - 1) (Z.of_nat nr)); lia. }
  unfold Gdal.ReadAsArray. rewrite Hlen.
  destruct (Z.leb_spec (0 + (Z.of_nat nr + ws / 2)) (Z.of_nat nr)); [lia|].
  by rewrite andb_false_r.
Qed.

(** A returning loop has logged, block after block, the read and the write
    that the planner gives, and then the flush. *)
Lemma blocks_loop_events (in_band : list (list Z)) ws t blk_rows idx :
  forall out log,
    ended (blocks_loop in_band ws t blk_rows idx out log) = Returned ->
    events (blocks_loop in_band ws t blk_rows idx out log) =
    log ++ flat_map (planned_events (Z.of_nat (nrows in_band)) blk_rows ws) idx
        ++ [EvFlush].
Proof.
  induction idx as [|i idx IH]; intros out log Hend; [done|].
  revert Hend. rewrite blocks_loop_cons.
  destruct (Gdal.ReadAsArray in_band (yoff ws i) _) as [in_data|] eqn:Hread;
    [|done].
  destruct (write_matches_plan in_band in_data ws t blk_rows i Hread) as [Hd Hn].
  cbv zeta. rewrite Hd.
  destruct (Gdal.WriteArray out _ (target_row ws i)) as [out'|]; [|done].
  intros Hend. rewrite (IH _ _ Hend). simpl. rewrite <- Hn, Nat2Z.id.
  by rewrite <- app_assoc.
Qed.

Lemma blocks_loop_no_flush (in_band : list (list Z)) ws t blk_rows idx :
  forall out log,
    EvFlush ∉ log ->
    ended (blocks_loop in_band ws t blk_rows idx out log) = Raised ->
    EvFlush ∉ events (blocks_loop in_band ws t blk_rows idx out log).
Proof.
  induction idx as [|i idx IH]; intros out log Hlog; [done|].
  rewrite blocks_loop_cons.
  destruct (Gdal.ReadAsArray in_band (yoff ws i) _) as [in_data|].
  - cbv zeta. destruct (Gdal.WriteArray out _ _) as [out'|].
    + apply IH. rewrite elem_of_app, !elem_of_cons. intros [?|[?|[?|?]]];
        [done|done|done|by eapply elem_of_nil].
    + simpl. intros _. rewrite elem_of_app, !elem_of_cons. intros [?|[?|[?|?]]];
        [done|done|done|by eapply elem_of_nil].
  - simpl. intros _. rewrite elem_of_app, !elem_of_cons. intros [?|[?|?]];
      [done|done|by eapply elem_of_nil].
Qed.

Lemma blocks_loop_shape nr nc (in_band : list (list Z)) ws t blk_rows idx :
  rect nr nc in_band ->
  forall out log out',
    rect nr nc out ->
    out_band (blocks_loop in_band ws t blk_rows idx out log) = Some out' ->
    rect nr nc out'.
Proof.
  intros Hband. pose proof Hband as [Hlen _].
  induction idx as [|i idx IH]; intros out log out' Hout.
  - simpl. by intros [= <-].
  - rewrite blocks_loop_cons. unfold Gdal.ReadAsArray.
    destruct ((0 <=? yoff ws i)
              && (1 <=? rows (Z.of_nat (nrows in_band)) blk_rows ws i)
              && (yoff ws i + rows (Z.of_nat (nrows in_band)) blk_rows ws i
                  <=? Z.of_nat (length in_band))) eqn:Hread;
      [|simpl; by intros [= <-]].
    apply andb_prop in Hread as [Hread H3]. apply andb_prop in Hread as [H1 H2].
    apply Z.leb_le in H1, H2, H3. cbv zeta.
    set (in_data := take _ (drop _ in_band)).
    assert (rect (Z.to_nat (rows (Z.of_nat (nrows in_band)) blk_rows ws i)) nc
                 (out_data in_data ws t)) as Hblock.
    { apply rect_out_data, (rect_take_drop nr nc); [done|lia]. }
    set (array := if yoff ws i =? 0 then _ else _).
    assert (exists n, rect n nc array) as [n Harr].
    { unfold array. destruct (yoff ws i =? 0); [eauto|].
      unfold slice_from. destruct (0 <=? extra_lines ws);
        eexists; by apply rect_drop. }
    unfold Gdal.WriteArray.
    destruct ((0 <=? _) && (_ <=? _)); [|simpl; by intros [= <-]].
    apply IH. by eapply rect_inserts.
Qed.

End RunFacts.

(** ** A window of one cell: no halo, any grid height *)

Section Thin.
Import Array2 Rate Planner.
Context (nr nc : nat) (in_band : list (list Z)) (t : R) (blk_rows : Z).
Hypothesis Hband : rect nr nc in_band.
Hypothesis Hblk : 1 <= blk_rows.

Lemma thin_step (k : nat) out log idx' :
  Z.of_nat k * blk_rows < Z.of_nat nr ->
  rect nr nc out ->
  (forall r : nat, Z.of_nat r < Z.of_nat k * blk_rows -> (r < nr)%nat ->
     out !! r = out_data in_band 1 t !! r) ->
  exists out' log',
    blocks_loop in_band 1 t blk_rows (Z.of_nat k * blk_rows :: idx') out log =
    blocks_loop in_band 1 t blk_rows idx' out' log' /\
    rect nr nc out' /\
    (forall r : nat, Z.of_nat r < Z.of_nat (S k) * blk_rows -> (r < nr)%nat ->
       out' !! r = out_data in_band 1 t !! r).
Proof.
  intros Hi Hout Hinv. pose proof Hband as [Hlen _]. pose proof Hout as [Hlen' _].
  rewrite blocks_loop_cons. unfold nrows. rewrite Hlen.
  set (i := Z.of_nat k * blk_rows) in *.
  assert (0 <= i) as Hi0 by (unfold i; nia).
  assert (yoff 1 i = i) as Hyo by (unfold yoff, extra_lines; change (1 / 2) with 0; lia).
  set (rw := rows (Z.of_nat nr) blk_rows 1 i).
  assert (1 <= rw /\ i + rw <= Z.of_nat nr /\
          (rw = blk_rows \/ i + rw = Z.of_nat nr)) as (Hr1 & Hyr & Hrw).
  { unfold rw, rows, extra_lines. change (1 / 2) with 0.
    destruct (Z.ltb_spec (i + blk_rows + 2 * 0 - 1) (Z.of_nat nr)); lia. }
  rewrite Hyo. rewrite ReadAsArray_in_grid by lia.
  set (in_data := take (Z.to_nat rw) (drop (Z.to_nat i) in_band)).
  assert (rect (Z.to_nat rw) nc in_data) as Hblock
    by (apply (rect_take_drop nr nc); [done|lia]).
  pose proof (rect_out_data _ _ _ 1 t Hblock) as Hob.
  pose proof Hob as [Hlo _].
  cbv zeta. unfold extra_lines. change (1 / 2) with 0.
  assert ((if i =? 0 then out_data in_data 1 t
           else slice_from 0 (out_data in_data 1 t)) = out_data in_data 1 t) as ->
    by (by destruct (i =? 0)).
  assert ((if i =? 0 then 0 else i + 0) = i) as ->
    by (destruct (Z.eqb_spec i 0); lia).
  rewrite WriteArray_in_grid by (rewrite ?Hlo; lia).
  eexists _, _. split; [reflexivity|]. split.
  - by eapply rect_inserts.
  - intros r Hr Hrn. destruct (decide (Z.of_nat r < i)) as [Hlt|Hnlt].
    + rewrite list_lookup_inserts_lt by lia. by apply Hinv.
    + rewrite list_lookup_inserts by (rewrite ?Hlo; lia).
      subst in_data.
      rewrite (block_row_transparent nr nc)
        by (done || (change (1 / 2) with 0; lia) || lia).
      f_equal. lia.
Qed.

Lemma thin_loop_correct (m k0 : nat) out log :
  Z.of_nat (k0 + m) * blk_rows < Z.of_nat nr + blk_rows ->
  rect nr nc out ->
  (forall r : nat, Z.of_nat r < Z.of_nat k0 * blk_rows -> (r < nr)%nat ->
     out !! r = out_data in_band 1 t !! r) ->
  exists out' log',
    blocks_loop in_band 1 t blk_rows
      (map (fun k => Z.of_nat k * blk_rows) (seq k0 m)) out log =
    Run log' (Some out') Returned /\
    rect nr nc out' /\
    (forall r : nat, Z.of_nat r < Z.of_nat (k0 + m) * blk_rows -> (r < nr)%nat ->
       out' !! r = out_data in_band 1 t !! r).
Proof.
  revert k0 out log. induction m as [|m IH]; intros k0 out log Hlast Hout Hinv.
  - exists out, (log ++ [EvFlush]). rewrite Nat.add_0_r. split; [done|]. by split.
  - change (map (fun k => Z.of_nat k * blk_rows) (seq k0 (S m)))
      with (Z.of_nat k0 * blk_rows
              :: map (fun k => Z.of_nat k * blk_rows) (seq (S k0) m)).
    destruct (thin_step k0 out log
                (map (fun k => Z.of_nat k * blk_rows) (seq (S k0) m)))
      as (out1 & log1 & -> & Hout1 & Hinv1); [nia|done|done|].
    replace (k0 + S m)%nat with (S k0 + m)%nat by lia.
    apply IH; [|done|done].
    replace (S k0 + m)%nat with (k0 + S m)%nat by lia. done.
Qed.

End Thin.

Section RunTransparent.
Import Array2 Rate Planner.

(** The call returns the single-pass raster when the first block is not the
    last, and also when the window is one cell. *)
Lemma run_transparent nr nc (in_band : list (list Z)) ws t blk_rows :
  rect nr nc in_band ->
  valid_config (Z.of_nat nr) blk_rows ws ->
  blk_rows + 2 * (ws / 2) - 1 < Z.of_nat nr \/ ws = 1 ->
  out_band (local_defor_rate in_band ws t blk_rows)
    = Some (out_data in_band ws t) /\
  ended (local_defor_rate in_band ws t blk_rows) = Returned.
Proof.
  intros Hband Hvalid Hcase. pose proof Hvalid as (Hy & Hw & Hodd & Hb).
  destruct (rect_shape _ _ _ Hband) as (Hnr & Hnc & _).
  unfold local_defor_rate.
  destruct (Z.eqb_spec (ws mod 2) 0) as [|_]; [lia|].
  destruct (Z.gtb_spec ws blk_rows) as [|_]; [lia|].
  cbv zeta. rewrite Hnr, Hnc by lia.
  unfold py_range.
  destruct (Z.eqb_spec blk_rows 0) as [|_]; [lia|].
  destruct (Z.ltb_spec 0 blk_rows) as [_|]; [|lia].
  set (n := Z.to_nat ((Z.of_nat nr + blk_rows - 1) / blk_rows)).
  assert (Z.of_nat nr <= Z.of_nat n * blk_rows < Z.of_nat nr + blk_rows) as Hn.
  { unfold n.
    pose proof (Z.div_mod (Z.of_nat nr + blk_rows - 1) blk_rows ltac:(lia)).
    pose proof (Z.mod_pos_bound (Z.of_nat nr + blk_rows - 1) blk_rows ltac:(lia)).
    assert (0 <= (Z.of_nat nr + blk_rows - 1) / blk_rows)
      by (apply Z.div_pos; lia).
    rewrite Z2Nat.id by done. nia. }
  assert (exists out' log',
    blocks_loop in_band ws t blk_rows
      (map (fun k => Z.of_nat k * blk_rows) (seq 0 n)) (full nr nc 0)
      [EvOpen; EvCreate nc nr] = Run log' (Some out') Returned /\
    rect nr nc out' /\
    (forall r : nat, Z.of_nat r < Z.of_nat (0 + n) * blk_rows -> (r < nr)%nat ->
       out' !! r = out_data in_band ws t !! r))
    as (out' & log' & -> & Hout' & Hinv).
  { destruct (Z.eq_dec ws 1) as [->|Hne].
    - apply (thin_loop_correct nr nc in_band t blk_rows Hband ltac:(lia));
        [simpl; lia|apply rect_full|intros; lia].
    - apply (blocks_loop_correct nr nc in_band ws t blk_rows Hband Hvalid
               ltac:(lia)); [simpl; lia|apply rect_full|intros; lia]. }
  simpl. split; [|done]. f_equal.
  pose proof (rect_out_data nr nc in_band ws t Hband) as [Hl _].
  destruct Hout' as [Hl' _].
  apply list_eq. intros r. destruct (decide (r < nr)%nat) as [Hr|Hr].
  - apply Hinv; [simpl; lia|done].
  - rewrite !lookup_ge_None_2; [done|lia|lia].
Qed.

Lemma Q2R_inject_Z (n : Z) : Q2R (inject_Z n) = IZR n.
Proof. unfold Q2R, inject_Z. simpl. lra. Qed.

(** With a window of one cell the output block is the input recoded. *)
Lemma out_data_thin nr nc (in_data : list (list Z)) t :
  rect nr nc in_data -> (0 < t)%R ->
  out_data in_data 1 t = map (map recode) in_data.
Proof.
  intros Ha Ht.
  apply (rect_ext nr nc); [by apply rect_out_data|by apply rect_map|].
  intros r c Hr Hc. rewrite (get_out_data nr nc), get_map by done.
  destruct (get_is_Some _ _ _ _ _ Ha Hr Hc) as [v Hv]. rewrite Hv. simpl. f_equal.
  assert (cell 0 in_data (Z.of_nat r) (Z.of_nat c) = v) as Hcv
    by (by rewrite cell_of_nat, Hv).
  unfold win_defor, win_for, Focal.uniform_filter. change (1 <? 1) with false.
  cbv iota. change 0%Q with (inject_Z 0). rewrite !cell_map.
  rewrite (cell_defor_data nr nc), (cell_for_data nr nc), Hcv by done.
  unfold recode. destruct (Z.eqb_spec v 1) as [->|Hv1].
  - change (0 <? 1) with true. cbv iota.
    apply rate_code_p1; [|done]. rewrite Q2R_inject_Z. lra.
  - destruct (0 <? v); [|done].
    apply rate_code_p0. rewrite !Q2R_inject_Z. lra.
Qed.

End RunTransparent.

Section RunProperties.
Import Array2 Rate Planner Examples.

(** X3: for a valid configuration with a window of 3 cells or more, on a
    grid so short that the first block is also the last
    ([ysize <= blk_rows + 2 * extra_lines - 1]), the call opens the input,
    creates the output raster, asks for [ysize + extra_lines] rows from row
    0, the read fails and the call raises: no block is written and nothing
    is flushed. *)
Theorem X3_short_grid_raises nr nc (in_band : list (list Z)) ws t blk_rows :
  rect nr nc in_band -> valid_config (Z.of_nat nr) blk_rows ws ->
  3 <= ws -> Z.of_nat nr <= blk_rows + 2 * (ws / 2) - 1 ->
  events (local_defor_rate in_band ws t blk_rows)
    = [EvOpen; EvCreate nc nr; EvRead 0 (Z.of_nat nr + ws / 2)] /\
  ended (local_defor_rate in_band ws t blk_rows) = Raised.
Proof.
  intros Hband Hvalid H3 Hsmall.
  by rewrite (small_grid_run nr nc in_band ws t blk_rows Hband Hvalid H3 Hsmall).
Qed.

Lemma X3_short_grid_raises_witness :
  events (local_defor_rate forest3 3 5%R 7)
    = [EvOpen; EvCreate 3 3; EvRead 0 (Z.of_nat 3 + 3 / 2)] /\
  ended (local_defor_rate forest3 3 5%R 7) = Raised.
Proof.
  apply (X3_short_grid_raises 3 3 forest3 3 5%R 7).
  - rect_literal.
  - unfold valid_config. repeat split; try lia; reflexivity.
  - lia.
  - vm_compute. discriminate.
Defined.

(** X4: for a valid configuration the call returns normally exactly when
    the first block is not the last or the window is one cell; otherwise it
    raises. *)
Theorem X4_returns_iff nr nc (in_band : list (list Z)) ws t blk_rows :
  rect nr nc in_band -> valid_config (Z.of_nat nr) blk_rows ws ->
  (ended (local_defor_rate in_band ws t blk_rows) = Returned <->
   blk_rows + 2 * (ws / 2) - 1 < Z.of_nat nr \/ ws = 1).
Proof.
  intros Hband Hvalid. split.
  - intros Hret.
    destruct (Z.lt_ge_cases (blk_rows + 2 * (ws / 2) - 1) (Z.of_nat nr));
      [by left|].
    destruct (Z.eq_dec ws 1); [by right|]. exfalso.
    pose proof Hvalid as (Hy & Hw & Hodd & Hb).
    destruct (odd_half ws Hw Hodd) as [Hh Hh0]. unfold extra_lines in Hh, Hh0.
    rewrite (small_grid_run nr nc) in Hret by (done || lia). done.
  - intros Hcase. by apply (run_transparent nr nc).
Qed.

Lemma X4_returns_iff_witness :
  ended (local_defor_rate tall 3 5%R 3) = Returned <->
  3 + 2 * (3 / 2) - 1 < Z.of_nat 8 \/ 3 = 1.
Proof.
  apply (X4_returns_iff 8 2 tall 3 5%R 3).
  - rect_literal.
  - unfold valid_config. repeat split; try lia; reflexivity.
Defined.

(** X5: with [win_size = 1] and a positive time interval the call returns
    normally for every grid with at least one row and every
    [blk_rows >= 1], and the output raster is the input recoded cell by
    cell: 10000 for class 1, 0 for any other positive class and 65535 for
    the rest. *)
Theorem X5_one_cell_window_recodes nr nc (in_band : list (list Z)) t blk_rows :
  rect nr nc in_band -> (1 <= nr)%nat -> 1 <= blk_rows -> (0 < t)%R ->
  out_band (local_defor_rate in_band 1 t blk_rows)
    = Some (map (map recode) in_band) /\
  ended (local_defor_rate in_band 1 t blk_rows) = Returned.
Proof.
  intros Hband Hnr Hb Ht.
  rewrite <- (out_data_thin nr nc in_band t) by done.
  apply (run_transparent nr nc); [done| |by right].
  unfold valid_config. repeat split; lia.
Qed.

Lemma X5_one_cell_window_recodes_witness :
  out_band (local_defor_rate tall 1 5%R 3) = Some (map (map recode) tall) /\
  ended (local_defor_rate tall 1 5%R 3) = Returned.
Proof.
  apply (X5_one_cell_window_recodes 8 2 tall 5%R 3).
  - rect_literal.
  - lia.
  - lia.
  - lra.
Defined.

(** X6: when a call that passed the checks returns, its events are the
    opening and the creation of the output, then for each loop index in order
    a read of [rows] rows at [yoff] and a write of [rows_written] rows at
    [target_row], then one flush. *)
Theorem X6_returned_events_follow_plan (in_band : list (list Z)) ws t blk_rows :
  ws mod 2 <> 0 -> ws <= blk_rows ->
  ended (local_defor_rate in_band ws t blk_rows) = Returned ->
  exists idx,
    py_range (Z.of_nat (nrows in_band)) blk_rows = Some idx /\
    events (local_defor_rate in_band ws t blk_rows) =
    [EvOpen; EvCreate (ncols in_band) (nrows in_band)]
    ++ flat_map (planned_events (Z.of_nat (nrows in_band)) blk_rows ws) idx
    ++ [EvFlush].
Proof.
  intros Hodd Hle. unfold local_defor_rate.
  destruct (Z.eqb_spec (ws mod 2) 0) as [|_]; [done|].
  destruct (Z.gtb_spec ws blk_rows) as [|_]; [lia|].
  cbv zeta. destruct (py_range _ blk_rows) as [idx|]; [|done].
  intros Hret. exists idx. split; [done|]. by apply blocks_loop_events.
Qed.

Lemma X6_returned_events_follow_plan_witness :
  exists idx,
    py_range (Z.of_nat (nrows tall)) 3 = Some idx /\
    events (local_defor_rate tall 3 5%R 3) =
    [EvOpen; EvCreate (ncols tall) (nrows tall)]
    ++ flat_map (planned_events (Z.of_nat (nrows tall)) 3 3) idx
    ++ [EvFlush].
Proof.
  apply (X6_returned_events_follow_plan tall 3 5%R 3).
  - vm_compute. discriminate.
  - lia.
  - reflexivity.
Defined.

(** X7: a call that raises has not flushed the output: the flush and the
    statistics only come after every block has been read and written. *)
Theorem X7_raised_never_flushes (in_band : list (list Z)) ws t blk_rows :
  ended (local_defor_rate in_band ws t blk_rows) = Raised ->
  EvFlush ∉ events (local_defor_rate in_band ws t blk_rows).
Proof.
  unfold local_defor_rate.
  destruct (ws mod 2 =? 0); [done|]. destruct (ws >? blk_rows); [done|].
  cbv zeta. destruct (py_range _ blk_rows) as [idx|].
  - apply blocks_loop_no_flush.
    rewrite !elem_of_cons. intros [?|[?|?]]; [done|done|by eapply elem_of_nil].
  - simpl. intros _.
    rewrite !elem_of_cons. intros [?|[?|?]]; [done|done|by eapply elem_of_nil].
Qed.

Lemma X7_raised_never_flushes_witness :
  EvFlush ∉ events (local_defor_rate forest3 3 5%R 3).
Proof.
  apply (X7_raised_never_flushes forest3 3 5%R 3). reflexivity.
Defined.

(** X8: whenever the call leaves an output raster, also after a failure, the
    raster has the number of rows and of columns of the input. *)
Theorem X8_output_keeps_shape nr nc (in_band : list (list Z)) ws t blk_rows out :
  rect nr nc in_band ->
  out_band (local_defor_rate in_band ws t blk_rows) = Some out ->
  rect nr nc out.
Proof.
  intros Hband. destruct (rect_shape _ _ _ Hband) as (Hnr & Hnc & _).
  assert (rect nr nc (full (nrows in_band) (ncols in_band) (0 : Z))) as Hfull.
  { rewrite Hnr. destruct nr as [|n]; [split; [done|constructor]|].
    rewrite Hnc by lia. apply rect_full. }
  unfold local_defor_rate.
  destruct (ws mod 2 =? 0); [done|]. destruct (ws >? blk_rows); [done|].
  cbv zeta. destruct (py_range _ blk_rows) as [idx|].
  - by apply (blocks_loop_shape nr nc).
  - simpl. by intros [= <-].
Qed.

Lemma X8_output_keeps_shape_witness : rect 8 2 (out_data tall 3 5%R).
Proof.
  apply (X8_output_keeps_shape 8 2 tall 3 5%R 3 (out_data tall 3 5%R)).
  - rect_literal.
  - apply (run_transparent 8 2).
    + rect_literal.
    + unfold valid_config. repeat split; try lia; reflexivity.
    + left. vm_compute. reflexivity.
Defined.

(** X9: when the first block is not the last, or the window is one cell,
    and the time interval is not negative, the cells of the output raster
    that hold 65535 are exactly the cells whose input class is not positive. *)
Theorem X9_nodata_cells_of_raster nr nc (in_band : list (list Z)) ws t blk_rows :
  rect nr nc in_band -> valid_config (Z.of_nat nr) blk_rows ws ->
  blk_rows + 2 * (ws / 2) - 1 < Z.of_nat nr \/ ws = 1 -> (0 <= t)%R ->
  exists out,
    out_band (local_defor_rate in_band ws t blk_rows) = Some out /\
    forall r c, (r < nr)%nat -> (c < nc)%nat ->
      (get out r c = Some nodata <->
       cell 0 in_band (Z.of_nat r) (Z.of_nat c) <= 0).
Proof.
  intros Hband Hvalid Hcase Ht. pose proof Hvalid as (_ & Hw & _ & _).
  destruct (run_transparent nr nc in_band ws t blk_rows Hband Hvalid Hcase)
    as [Hout _].
  exists (out_data in_band ws t). split; [done|].
  intros r c Hr Hc. rewrite (get_out_data nr nc) by done.
  destruct (densities nr nc in_band ws r c Hband Hw Hr Hc)
    as (Hd0 & Hdf & Hpos & _).
  destruct (Z.ltb_spec 0 (cell 0 in_band (Z.of_nat r) (Z.of_nat c))) as [Hcls|Hcls].
  - destruct (Hpos Hcls) as [_ Hwf].
    pose proof (rate_code_range _ _ t Hd0 Hdf Hwf Ht). unfold nodata.
    split; [intros [= Heq]; lia|lia].
  - split; [lia|done].
Qed.

Lemma X9_nodata_cells_of_raster_witness :
  exists out,
    out_band (local_defor_rate tall 3 5%R 3) = Some out /\
    forall r c, (r < 8)%nat -> (c < 2)%nat ->
      (get out r c = Some nodata <->
       cell 0 tall (Z.of_nat r) (Z.of_nat c) <= 0).
Proof.
  apply (X9_nodata_cells_of_raster 8 2 tall 3 5%R 3).
  - rect_literal.
  - unfold valid_config. repeat split; try lia; reflexivity.
  - left. vm_compute. reflexivity.
  - lra.
Defined.

End RunProperties.

(** ** The rate transform: order and rounding *)

Section RateOrder.
Import Rate.
Local Open Scope R_scope.

Lemma ln_nonpos x : 0 < x <= 1 -> ln x <= 0.
Proof.
  intros [H0 [Hlt| ->]]; [|rewrite ln_1; lra].
  pose proof (ln_increasing x 1 H0 Hlt). rewrite ln_1 in *. lra.
Qed.

Lemma exp_mono a b : a <= b -> exp a <= exp b.
Proof. intros [Hlt| ->]; [left; by apply exp_increasing|lra]. Qed.

Lemma np_power_mono_base x y t :
  0 <= x <= y -> 0 <= t -> np_power x t <= np_power y t.
Proof.
  intros [Hx Hxy] Ht. unfold np_power.
  destruct (Req_dec_T x 0) as [->|Hx0]; destruct (Req_dec_T y 0) as [->|Hy0];
    try lra.
  - destruct (Req_dec_T t 0) as [->|Ht0].
    + rewrite Rpower_O by lra. lra.
    + left. apply exp_pos.
  - apply Rle_Rpower_l; lra.
Qed.

Lemma np_power_anti_exponent x t1 t2 :
  0 <= x <= 1 -> 0 <= t1 <= t2 -> np_power x t2 <= np_power x t1.
Proof.
  intros [Hx0 Hx1] [Ht1 Ht12]. unfold np_power.
  destruct (Req_dec_T x 0) as [->|Hne].
  - destruct (Req_dec_T t1 0); destruct (Req_dec_T t2 0); lra.
  - unfold Rpower. apply exp_mono.
    pose proof (ln_nonpos x ltac:(lra)). nra.
Qed.

Lemma np_rint_near_floor x :
  (Int_part x <= np_rint x <= Int_part x + 1)%Z.
Proof.
  unfold np_rint.
  destruct (Rlt_dec (x - IZR (Int_part x)) (1 / 2)); [lia|].
  destruct (Rlt_dec (1 / 2) (x - IZR (Int_part x))); [lia|].
  destruct (Z.even (Int_part x)); lia.
Qed.

Lemma np_rint_mono x y : x <= y -> (np_rint x <= np_rint y)%Z.
Proof.
  intros Hxy.
  pose proof (Int_part_bounds x) as [Hx1 Hx2].
  pose proof (Int_part_bounds y) as [Hy1 Hy2].
  assert (Int_part x <= Int_part y)%Z as Hf.
  { apply Z.lt_succ_r, lt_IZR. rewrite succ_IZR. lra. }
  destruct (Z.eq_dec (Int_part x) (Int_part y)) as [Heq|Hne].
  - unfold np_rint. rewrite <- Heq in *.
    destruct (Rlt_dec (x - IZR (Int_part x)) (1 / 2));
      destruct (Rlt_dec (y - IZR (Int_part x)) (1 / 2));
      destruct (Rlt_dec (1 / 2) (x - IZR (Int_part x)));
      destruct (Rlt_dec (1 / 2) (y - IZR (Int_part x)));
      destruct (Z.even (Int_part x)); try lia; lra.
  - pose proof (np_rint_near_floor x). pose proof (np_rint_near_floor y). lia.
Qed.

(** The nearest integer is within one half. *)
Lemma np_rint_error x : Rabs (IZR (np_rint x) - x) <= 1 / 2.
Proof.
  pose proof (Int_part_bounds x) as [H1 H2]. unfold np_rint.
  apply Rabs_le.
  destruct (Rlt_dec (x - IZR (Int_part x)) (1 / 2)); [lra|].
  destruct (Rlt_dec (1 / 2) (x - IZR (Int_part x))); [rewrite plus_IZR; lra|].
  destruct (Z.even (Int_part x)); [lra|rewrite plus_IZR; lra].
Qed.

Lemma quotient_mono wd1 wd2 wf :
  (wd1 <= wd2)%Q -> (0 < wf)%Q -> Q2R wd1 / Q2R wf <= Q2R wd2 / Q2R wf.
Proof.
  intros Hle Hpos. apply Qle_Rle in Hle. apply Qlt_Rlt in Hpos.
  rewrite RMicromega.Q2R_0 in Hpos. unfold Rdiv.
  apply Rmult_le_compat_r; [|done]. left. by apply Rinv_0_lt_compat.
Qed.

(** X10: for a fixed ever-forested density the code does not decrease when
    the deforested density grows (densities with [wd2 <= wf], [wf > 0], time
    interval not negative). *)
Theorem X10_code_grows_with_deforestation wd1 wd2 wf t :
  (wd1 <= wd2)%Q -> (wd2 <= wf)%Q -> (0 < wf)%Q -> 0 <= t ->
  (rate_code wd1 wf t <= rate_code wd2 wf t)%Z.
Proof.
  intros H12 H2f Hpos Ht. unfold rate_code, rate. apply np_rint_mono.
  pose proof (quotient_mono wd1 wd2 wf H12 Hpos) as Hq.
  pose proof (quotient_mono wd2 wf wf H2f Hpos) as Hq1.
  apply Qlt_Rlt in Hpos. rewrite RMicromega.Q2R_0 in Hpos.
  replace (Q2R wf / Q2R wf) with 1 in Hq1 by (field; lra).
  pose proof (np_power_mono_base (1 - Q2R wd2 / Q2R wf) (1 - Q2R wd1 / Q2R wf) t
                ltac:(lra) Ht). lra.
Qed.

Lemma X10_code_grows_with_deforestation_witness :
  (rate_code (1 # 9) (4 # 9) 5 <= rate_code (2 # 9) (4 # 9) 5)%Z.
Proof.
  apply (X10_code_grows_with_deforestation (1 # 9) (2 # 9) (4 # 9) 5).
  - vm_compute. discriminate.
  - vm_compute. discriminate.
  - reflexivity.
  - lra.
Defined.

(** X11: for fixed densities with [0 <= wd <= wf] and [wf > 0] the code does
    not decrease when the time interval grows. *)
Theorem X11_code_grows_with_time wd wf t1 t2 :
  (0 <= wd)%Q -> (wd <= wf)%Q -> (0 < wf)%Q -> 0 <= t1 <= t2 ->
  (rate_code wd wf t1 <= rate_code wd wf t2)%Z.
Proof.
  intros H0 Hle Hpos Ht. unfold rate_code, rate. apply np_rint_mono.
  destruct (rate_unit wd wf t1 H0 Hle Hpos ltac:(lra)) as [Hp _].
  pose proof (np_power_anti_exponent (1 - Q2R wd / Q2R wf) t1 t2
                ltac:(lra) Ht). lra.
Qed.

Lemma X11_code_grows_with_time_witness :
  (rate_code (1 # 9) (4 # 9) 1 <= rate_code (1 # 9) (4 # 9) 5)%Z.
Proof.
  apply (X11_code_grows_with_time (1 # 9) (4 # 9) 1 5).
  - vm_compute. discriminate.
  - vm_compute. discriminate.
  - reflexivity.
  - lra.
Defined.

(** X12: the code is 10000 times the rate up to one half; with a time
    interval of 1 the rate is the quotient of the densities itself, and with
    a time interval of 0 the code is 0 (densities with [wd <= wf],
    [wf > 0]). *)
Theorem X12_rounding_and_unit_interval wd wf t :
  (wd <= wf)%Q -> (0 < wf)%Q ->
  Rabs (IZR (rate_code wd wf t) - 10000 * rate wd wf t) <= 1 / 2 /\
  rate wd wf 1 = Q2R wd / Q2R wf /\
  rate_code wd wf 0 = 0%Z.
Proof.
  intros Hle Hpos. split; [apply np_rint_error|].
  pose proof (quotient_mono wd wf wf Hle Hpos) as Hq.
  apply Qlt_Rlt in Hpos. rewrite RMicromega.Q2R_0 in Hpos.
  replace (Q2R wf / Q2R wf) with 1 in Hq by (field; lra).
  split.
  - unfold rate, np_power.
    destruct (Req_dec_T (1 - Q2R wd / Q2R wf) 0) as [Hz|Hnz].
    + destruct (Req_dec_T 1 0); lra.
    + rewrite Rpower_1 by lra. lra.
  - unfold rate_code, rate, np_power.
    destruct (Req_dec_T (1 - Q2R wd / Q2R wf) 0) as [Hz|Hnz].
    + destruct (Req_dec_T 0 0); [|lra].
      replace (10000 * (1 - 1)) with (IZR 0) by lra. apply np_rint_IZR.
    + rewrite Rpower_O by lra.
      replace (10000 * (1 - 1)) with (IZR 0) by lra. apply np_rint_IZR.
Qed.

Lemma X12_rounding_and_unit_interval_witness :
  Rabs (IZR (rate_code (1 # 9) (4 # 9) 5) - 10000 * rate (1 # 9) (4 # 9) 5)
    <= 1 / 2 /\
  rate (1 # 9) (4 # 9) 1 = Q2R (1 # 9) / Q2R (4 # 9) /\
  rate_code (1 # 9) (4 # 9) 0 = 0%Z.
Proof.
  apply (X12_rounding_and_unit_interval (1 # 9) (4 # 9) 5).
  - vm_compute. discriminate.
  - reflexivity.
Defined.

End RateOrder.

(** ** Masks and densities of a block *)

Section BlockMore.
Import Array2 Focal Masks Rate Examples.

(** X13: the masks built by index assignment are the entry-wise indicators
    of class 1 and of a positive class: they have the shape of the block,
    hold only 0 and 1, and the deforested mask is 1 only where the forest
    mask is. *)
Theorem X13_masks_are_indicators nr nc (in_data : list (list Z)) :
  rect nr nc in_data ->
  defor_data in_data = map (map (fun v => if v =? 1 then 1 else 0)) in_data /\
  for_data in_data = map (map (fun v => if 0 <? v then 1 else 0)) in_data /\
  binary (defor_data in_data) /\ binary (for_data in_data) /\
  (forall r c, get (defor_data in_data) r c = Some 1 ->
               get (for_data in_data) r c = Some 1).
Proof.
  intros Ha.
  assert (defor_data in_data = map (map (fun v => if v =? 1 then 1 else 0)) in_data)
    as Hd.
  { apply (rect_ext nr nc); [by apply rect_defor_data|by apply rect_map|].
    intros r c Hr Hc. rewrite (defor_data_spec nr nc), get_tabulate, get_map by done.
    rewrite cell_of_nat. by destruct (get_is_Some _ _ _ _ _ Ha Hr Hc) as [v ->]. }
  assert (for_data in_data = map (map (fun v => if 0 <? v then 1 else 0)) in_data)
    as Hf.
  { apply (rect_ext nr nc); [by apply rect_for_data|by apply rect_map|].
    intros r c Hr Hc. rewrite (for_data_spec nr nc), get_tabulate, get_map by done.
    rewrite cell_of_nat. by destruct (get_is_Some _ _ _ _ _ Ha Hr Hc) as [v ->]. }
  split; [done|]. split; [done|]. rewrite Hd, Hf. repeat split.
  - intros r c v. rewrite get_map. destruct (get in_data r c) as [u|]; [|done].
    simpl. intros [= <-]. destruct (u =? 1); auto.
  - intros r c v. rewrite get_map. destruct (get in_data r c) as [u|]; [|done].
    simpl. intros [= <-]. destruct (0 <? u); auto.
  - intros r c. rewrite !get_map. destruct (get in_data r c) as [u|]; [|done].
    simpl. destruct (Z.eqb_spec u 1) as [->|]; [done|]. intros [=].
Qed.

Lemma X13_masks_are_indicators_witness :
  defor_data tall_block0
    = map (map (fun v => if v =? 1 then 1 else 0)) tall_block0 /\
  for_data tall_block0
    = map (map (fun v => if 0 <? v then 1 else 0)) tall_block0 /\
  binary (defor_data tall_block0) /\ binary (for_data tall_block0) /\
  (forall r c, get (defor_data tall_block0) r c = Some 1 ->
               get (for_data tall_block0) r c = Some 1).
Proof. apply (X13_masks_are_indicators 5 2 tall_block0). rect_literal. Defined.

Lemma sumZ_bound {X} (f : X -> Z) (b : Z) l :
  (forall x, x ∈ l -> f x <= b) -> sumZ (map f l) <= Z.of_nat (length l) * b.
Proof.
  induction l as [|x l IH]; intros H; [simpl; lia|].
  pose proof (H x (list_elem_of_here _ _)).
  assert (sumZ (map f l) <= Z.of_nat (length l) * b)
    by (apply IH; intros y Hy; by apply H, list_elem_of_further).
  simpl length. simpl sumZ. lia.
Qed.

Lemma window_total_le_area nr nc (in_data : list (list Z)) ws (r c : Z) :
  rect nr nc in_data -> 1 <= ws ->
  window_total (for_data in_data) ws r c <= ws * ws.
Proof.
  intros Ha Hws. unfold window_total.
  etransitivity; [apply (sumZ_bound _ ws)|].
  - intros k _. unfold column_total.
    etransitivity; [apply (sumZ_bound _ 1)|].
    + intros j _. rewrite (cell_for_data nr nc) by done.
      destruct (0 <? cell 0 in_data j k); lia.
    + rewrite length_seqZ. lia.
  - rewrite length_seqZ. lia.
Qed.

Lemma binary_masks nr nc (in_data : list (list Z)) :
  rect nr nc in_data -> binary (defor_data in_data) /\ binary (for_data in_data).
Proof.
  intros Ha. split; intros r c v Hg.
  - pose proof (get_Some_bounds _ _ _ _ _ _ (rect_defor_data _ _ _ Ha) Hg) as [Hr Hc].
    rewrite (defor_data_spec nr nc), get_tabulate in Hg by done.
    injection Hg as <-. destruct (_ =? 1); auto.
  - pose proof (get_Some_bounds _ _ _ _ _ _ (rect_for_data _ _ _ Ha) Hg) as [Hr Hc].
    rewrite (for_data_spec nr nc), get_tabulate in Hg by done.
    injection Hg as <-. destruct (0 <? _); auto.
Qed.

(** X14: for an odd window size, the share of class-1 cells in the window
    centred on a cell (the cells of the window inside the block, over the
    window area) and the share of cells of positive class are the window
    sums of the two masks over the window area, and
    [0 <= share of class 1 <= share of positive class <= 1].  These are the
    exact fractions that the two filtered arrays approximate. *)
Theorem X14_densities_are_fractions nr nc (in_data : list (list Z)) ws (r c : Z) :
  rect nr nc in_data -> 1 <= ws -> ws mod 2 = 1 ->
  let fd := Reference.focal_density (defor_data in_data) ws r c in
  let ff := Reference.focal_density (for_data in_data) ws r c in
  (fd == inject_Z (window_total (defor_data in_data) ws r c)
         / inject_Z (ws * ws))%Q /\
  (ff == inject_Z (window_total (for_data in_data) ws r c)
         / inject_Z (ws * ws))%Q /\
  (0 <= fd)%Q /\ (fd <= ff)%Q /\ (ff <= 1)%Q.
Proof.
  intros Ha Hws Hodd fd ff.
  destruct (odd_half ws Hws Hodd) as [Hh _]. unfold Planner.extra_lines in Hh.
  destruct (binary_masks nr nc in_data Ha) as [Hbd Hbf].
  assert (0 < ws * ws) as Hsq by nia.
  pose proof (window_total_bounds nr nc in_data ws r c Ha) as [Hd0 Hdf].
  pose proof (window_total_le_area nr nc in_data ws r c Ha Hws) as Hf1.
  assert (fd == inject_Z (window_total (defor_data in_data) ws r c)
                / inject_Z (ws * ws))%Q as Hd.
  { unfold fd, Reference.focal_density.
    rewrite <- window_total_count; [reflexivity|done|lia]. }
  assert (ff == inject_Z (window_total (for_data in_data) ws r c)
                / inject_Z (ws * ws))%Q as Hf.
  { unfold ff, Reference.focal_density.
    rewrite <- window_total_count; [reflexivity|done|lia]. }
  assert (inject_Z 0 / inject_Z (ws * ws) == 0)%Q as H0
    by (unfold Qdiv; apply Qmult_0_l).
  split; [done|]. split; [done|]. split; [|split].
  - rewrite Hd, <- H0. by apply Qdiv_inject_le.
  - rewrite Hd, Hf. by apply Qdiv_inject_le.
  - rewrite Hf.
    assert (inject_Z (ws * ws) / inject_Z (ws * ws) == 1)%Q as <-
      by (field; apply inject_Z_ne_0; nia).
    by apply Qdiv_inject_le.
Qed.

Lemma X14_densities_are_fractions_witness :
  let fd := Reference.focal_density (defor_data tall_block0) 3 4 0 in
  let ff := Reference.focal_density (for_data tall_block0) 3 4 0 in
  (fd == inject_Z (window_total (defor_data tall_block0) 3 4 0)
         / inject_Z (3 * 3))%Q /\
  (ff == inject_Z (window_total (for_data tall_block0) 3 4 0)
         / inject_Z (3 * 3))%Q /\
  (0 <= fd)%Q /\ (fd <= ff)%Q /\ (ff <= 1)%Q.
Proof.
  apply (X14_densities_are_fractions 5 2 tall_block0 3 4 0).
  - rect_literal.
  - lia.
  - reflexivity.
Defined.

(** X15: in a block without any cell of class 1 every computed code is 0,
    whatever the window size and the time interval: the output is 0 at the
    cells of positive class and 65535 elsewhere. *)
Theorem X15_no_deforestation_gives_zero nr nc (in_data : list (list Z)) ws t
    (r c : nat) :
  rect nr nc in_data -> 1 <= ws ->
  (forall r' c', get in_data r' c' <> Some 1) ->
  (r < nr)%nat -> (c < nc)%nat ->
  get (out_data in_data ws t) r c =
  Some (if 0 <? cell 0 in_data (Z.of_nat r) (Z.of_nat c) then 0 else nodata).
Proof.
  intros Ha Hws Hno Hr Hc. rewrite (get_out_data nr nc) by done.
  destruct (0 <? cell 0 in_data (Z.of_nat r) (Z.of_nat c)); [|done].
  f_equal. apply rate_code_p0.
  assert (forall j k, cell 0 (defor_data in_data) j k = 0) as Hzero.
  { intros j k. rewrite (cell_defor_data nr nc) by done.
    destruct (Z.eqb_spec (cell 0 in_data j k) 1) as [Hone|]; [|done].
    exfalso. unfold cell in Hone.
    destruct ((0 <=? j) && (0 <=? k)); [|done].
    destruct (get in_data (Z.to_nat j) (Z.to_nat k)) as [v|] eqn:Hg; [|done].
    simpl in Hone. subst v. by eapply Hno. }
  pose proof (uniform_filter_cell nr nc (defor_data in_data) ws r c
                (rect_defor_data _ _ _ Ha) Hws Hr Hc) as Hd.
  fold (win_defor in_data ws) in Hd.
  assert (window_total (defor_data in_data) ws (Z.of_nat r) (Z.of_nat c) = 0) as Hw.
  { unfold window_total. apply sumZ_zero. intros k _.
    unfold column_total. apply sumZ_zero. intros j _. apply Hzero. }
  rewrite Hw in Hd.
  assert (cell 0%Q (win_defor in_data ws) (Z.of_nat r) (Z.of_nat c) == 0)%Q as Hq.
  { rewrite Hd. unfold Qdiv. change (inject_Z 0) with 0%Q. apply Qmult_0_l. }
  apply Qeq_eqR in Hq. rewrite Hq, RMicromega.Q2R_0.
  unfold Rdiv. apply Rmult_0_l.
Qed.

Lemma no_ones_bare : forall r' c', get bare r' c' <> Some 1.
Proof.
  intros r c.
  destruct r as [|[|[|r]]]; destruct c as [|[|c]]; simpl; discriminate.
Qed.

Lemma X15_no_deforestation_gives_zero_witness :
  get (out_data bare 3 5%R) 2 1 =
  Some (if 0 <? cell 0 bare (Z.of_nat 2) (Z.of_nat 1) then 0 else nodata).
Proof.
  apply (X15_no_deforestation_gives_zero 3 2 bare 3 5%R 2 1).
  - rect_literal.
  - lia.
  - apply no_ones_bare.
  - lia.
  - lia.
Defined.

(** X16: in a block whose cells of positive class are all of class 1, with a
    positive time interval, every computed code is 10000, also at the edges
    of the block: the output is 10000 at the cells of class 1 and 65535
    elsewhere. *)
Theorem X16_all_deforested_gives_full nr nc (in_data : list (list Z)) ws t
    (r c : nat) :
  rect nr nc in_data -> 1 <= ws -> (0 < t)%R ->
  (forall r' c' v, get in_data r' c' = Some v -> 0 < v -> v = 1) ->
  (r < nr)%nat -> (c < nc)%nat ->
  get (out_data in_data ws t) r c =
  Some (if 0 <? cell 0 in_data (Z.of_nat r) (Z.of_nat c) then 10000 else nodata).
Proof.
  intros Ha Hws Ht Hall Hr Hc. rewrite (get_out_data nr nc) by done.
  destruct (Z.ltb_spec 0 (cell 0 in_data (Z.of_nat r) (Z.of_nat c))) as [Hcls|];
    [|done].
  f_equal. apply rate_code_p1; [|done].
  assert (defor_data in_data = for_data in_data) as Heq.
  { apply (rect_ext nr nc); [by apply rect_defor_data|by apply rect_for_data|].
    intros r' c' Hr' Hc'.
    rewrite (defor_data_spec nr nc), (for_data_spec nr nc), !get_tabulate by done.
    rewrite cell_of_nat.
    destruct (get_is_Some _ _ _ _ _ Ha Hr' Hc') as [v Hv]. rewrite Hv. simpl.
    destruct (Z.eqb_spec v 1) as [->|Hne]; [done|].
    destruct (Z.ltb_spec 0 v) as [Hpos|]; [|done].
    by specialize (Hall _ _ _ Hv Hpos). }
  unfold win_defor. rewrite Heq. fold (win_for in_data ws).
  destruct (densities nr nc in_data ws r c Ha Hws Hr Hc) as (_ & _ & Hpos & _).
  destruct (Hpos Hcls) as [_ Hwf].
  apply Qlt_Rlt in Hwf. rewrite RMicromega.Q2R_0 in Hwf.
  field. lra.
Qed.

Lemma only_ones_diagonal :
  forall r' c' v, get diagonal r' c' = Some v -> 0 < v -> v = 1.
Proof.
  intros r c v H.
  destruct r as [|[|r]]; destruct c as [|[|c]]; simpl in H;
    try discriminate; injection H as <-; lia.
Qed.

Lemma X16_all_deforested_gives_full_witness :
  get (out_data diagonal 3 5%R) 0 0 =
  Some (if 0 <? cell 0 diagonal (Z.of_nat 0) (Z.of_nat 0) then 10000 else nodata).
Proof.
  apply (X16_all_deforested_gives_full 2 2 diagonal 3 5%R 0 0).
  - rect_literal.
  - lia.
  - lra.
  - apply only_ones_diagonal.
  - lia.
  - lia.
Defined.

End BlockMore.

(** ** The halo is wide enough *)

Section Halo.
Import Planner.

(** X17: for a valid configuration and a block other than a first block
    that is also the last, every row of the grid that lies in the focal
    window of a row of the block's own range [i, i + blk_rows) is among the
    rows the block reads. *)
Theorem X17_halo_covers_window ysize blk_rows ws idx i r j :
  valid_config ysize blk_rows ws ->
  py_range ysize blk_rows = Some idx -> i ∈ idx ->
  0 < i \/ blk_rows + 2 * extra_lines ws - 1 < ysize ->
  i <= r < i + blk_rows -> r < ysize ->
  r - extra_lines ws <= j <= r + extra_lines ws -> 0 <= j < ysize ->
  yoff ws i <= j < yoff ws i + rows ysize blk_rows ws i.
Proof.
  intros (Hy & Hw & Hodd & Hb) Hidx Hi Hcase Hr Hry Hj Hjy.
  destruct (odd_half ws Hw Hodd) as [Hh Hh0].
  apply (elem_of_py_range ysize blk_rows idx i ltac:(lia) Hidx) in Hi
    as (k & Hk & -> & Hlt).
  unfold yoff, rows. set (h := extra_lines ws) in *.
  assert (k = 0 \/ blk_rows <= k * blk_rows) as [-> | Hge] by nia.
  - destruct (Z.ltb_spec (0 * blk_rows + blk_rows + 2 * h - 1) ysize); lia.
  - destruct (Z.ltb_spec (k * blk_rows + blk_rows + 2 * h - 1) ysize); lia.
Qed.

Lemma X17_halo_covers_window_witness :
  yoff 3 3 <= 5 < yoff 3 3 + rows 10 3 3 3.
Proof.
  apply (X17_halo_covers_window 10 3 3 [0; 3; 6; 9] 3 4 5).
  - unfold valid_config. repeat split; try lia; reflexivity.
  - reflexivity.
  - apply list_elem_of_further, list_elem_of_here.
  - lia.
  - lia.
  - lia.
  - vm_compute. split; discriminate.
  - lia.
Defined.

End Halo.


(** ** [find_version] *)

Section FindVersion.
Import Setup.

Lemma strip_prefix_Some p s r : strip_prefix p s = Some r <-> s = p ++ r.
Proof.
  revert s. induction p as [|a p IH]; intros s; simpl.
  - split; [by intros [= ->]|by intros ->].
  - destruct s as [|b s]; [split; [done|intros [=]]|].
    destruct (Z.eqb_spec a b) as [->|Hne].
    + rewrite IH. split; [by intros ->|by intros [= ->]].
    + split; [done|intros [= ? _]; done].
Qed.

Lemma expect_Some c s r : expect c s = Some r <-> s = c :: r.
Proof.
  unfold expect. destruct s as [|b s]; [split; [done|intros [=]]|].
  destruct (Z.eqb_spec b c) as [->|Hne].
  - split; [by intros [= ->]|by intros [= ->]].
  - split; [done|intros [= ? _]; done].
Qed.

Lemma skip_spaces_split s :
  exists sp, s = sp ++ skip_spaces s /\ Forall (fun c => is_space c = true) sp.
Proof.
  induction s as [|c s (sp & Hs & Hsp)]; [by exists []|]. simpl.
  destruct (is_space c) eqn:Hc.
  - exists (c :: sp). split; [by rewrite Hs at 1|by constructor].
  - by exists [].
Qed.

Lemma skip_spaces_app sp c r :
  Forall (fun c => is_space c = true) sp -> is_space c = false ->
  skip_spaces (sp ++ c :: r) = c :: r.
Proof.
  intros Hsp Hc. induction Hsp as [|b sp Hb _ IH]; simpl.
  - by rewrite Hc.
  - by rewrite Hb.
Qed.

Lemma greedy_to_quote_Some s g :
  greedy_to_quote s = Some g ->
  exists rest, s = g ++ quote :: rest /\ (newline ∉ g) /\ no_quote_on_line rest.
Proof.
  revert g. induction s as [|c s IH]; intros g; [done|]. simpl.
  destruct (Z.eqb_spec c newline) as [|Hnl]; [done|].
  destruct (greedy_to_quote s) as [g'|] eqn:Hg.
  - intros [= <-]. destruct (IH g' eq_refl) as (rest & -> & Hn & Hq).
    exists rest. split; [done|]. split; [|done].
    rewrite elem_of_cons. intros [?|?]; [congruence|done].
  - destruct (Z.eqb_spec c quote) as [->|]; [|done]. intros [= <-].
    exists s. split; [done|]. split; [apply not_elem_of_nil|].
    intros l1 l2 ->.
    (* a quote on the line would have been found *)
    clear IH Hnl. revert Hg. induction l1 as [|b l1 IHl]; simpl.
    + destruct (greedy_to_quote l2); intros; discriminate.
    + destruct (Z.eqb_spec b newline) as [->|Hb]; [intros _; apply list_elem_of_here|].
      destruct (greedy_to_quote (l1 ++ quote :: l2)) eqn:Hrec; [done|].
      intros _. apply list_elem_of_further. by apply IHl.
Qed.

Lemma greedy_to_quote_None rest :
  no_quote_on_line rest -> greedy_to_quote rest = None.
Proof.
  induction rest as [|c rest IH]; intros Hq; [done|]. simpl.
  destruct (Z.eqb_spec c newline) as [|Hnl]; [done|].
  rewrite IH.
  - destruct (Z.eqb_spec c quote) as [->|]; [|done].
    specialize (Hq [] rest eq_refl). by apply elem_of_nil in Hq.
  - intros l1 l2 ->. specialize (Hq (c :: l1) l2 eq_refl).
    apply elem_of_cons in Hq as [?|?]; [congruence|done].
Qed.

Lemma greedy_to_quote_app v rest :
  newline ∉ v -> no_quote_on_line rest ->
  greedy_to_quote (v ++ quote :: rest) = Some v.
Proof.
  intros Hv Hq. induction v as [|c v IH]; simpl.
  - by rewrite greedy_to_quote_None.
  - destruct (Z.eqb_spec c newline) as [->|_];
      [exfalso; apply Hv, list_elem_of_here|].
    rewrite IH; [done|]. intros Hin. by apply Hv, list_elem_of_further.
Qed.

Lemma match_at_Some s g :
  match_at s = Some g ->
  exists sp1 sp2 rest,
    s = key ++ sp1 ++ [equals] ++ sp2 ++ [quote] ++ g ++ [quote] ++ rest /\
    Forall (fun c => is_space c = true) sp1 /\
    Forall (fun c => is_space c = true) sp2 /\
    (newline ∉ g) /\ no_quote_on_line rest.
Proof.
  unfold match_at.
  destruct (strip_prefix key s) as [s1|] eqn:H1; [|done].
  destruct (expect equals (skip_spaces s1)) as [s2|] eqn:H2; [|done].
  destruct (expect quote (skip_spaces s2)) as [s3|] eqn:H3; [|done].
  intros Hg. apply strip_prefix_Some in H1. apply expect_Some in H2, H3.
  destruct (skip_spaces_split s1) as (sp1 & Hs1 & Hsp1).
  destruct (skip_spaces_split s2) as (sp2 & Hs2 & Hsp2).
  destruct (greedy_to_quote_Some _ _ Hg) as (rest & -> & Hn & Hq).
  exists sp1, sp2, rest. split; [|done].
  rewrite H1, Hs1, H2, Hs2, H3. done.
Qed.

Lemma match_at_line sp1 sp2 v rest :
  Forall (fun c => is_space c = true) sp1 ->
  Forall (fun c => is_space c = true) sp2 ->
  newline ∉ v -> no_quote_on_line rest ->
  match_at (key ++ sp1 ++ [equals] ++ sp2 ++ [quote] ++ v ++ [quote] ++ rest)
  = Some v.
Proof.
  intros Hsp1 Hsp2 Hv Hq. unfold match_at.
  rewrite (proj2 (strip_prefix_Some key _ _) eq_refl).
  change (sp1 ++ [equals] ++ sp2 ++ [quote] ++ v ++ [quote] ++ rest)
    with (sp1 ++ equals :: (sp2 ++ quote :: (v ++ quote :: rest))).
  rewrite skip_spaces_app by done.
  rewrite (proj2 (expect_Some equals _ _) eq_refl).
  rewrite skip_spaces_app by done.
  rewrite (proj2 (expect_Some quote _ _) eq_refl).
  by apply greedy_to_quote_app.
Qed.

Lemma search_Some b s g :
  search b s = Some g ->
  exists pre s', s = pre ++ s' /\ match_at s' = Some g /\
                 (pre = [] /\ b = true \/ last pre = Some newline).
Proof.
  revert b. induction s as [|c s IH]; intros b.
  - simpl. destruct b; [|done].
    destruct (match_at []) eqn:Hm; [|done]. intros [= ->].
    exists [], []. split; [done|]. split; [done|]. by left.
  - simpl. destruct (if b then match_at (c :: s) else None) as [g'|] eqn:Hm.
    + intros [= ->]. destruct b; [|done].
      exists [], (c :: s). split; [done|]. split; [done|]. by left.
    + intros Hs. destruct (IH _ Hs) as (pre & s' & -> & Hmatch & Hpre).
      exists (c :: pre), s'. split; [done|]. split; [done|]. right.
      destruct Hpre as [[-> Hc]|Hlast].
      * apply Z.eqb_eq in Hc. by subst.
      * destruct pre; [done|]. by rewrite last_cons, Hlast.
Qed.

Lemma match_at_other c s : c <> 95 -> match_at (c :: s) = None.
Proof.
  intros Hc. unfold match_at. change key with (95 :: codes "_version__").
  cbn [strip_prefix]. destruct (Z.eqb_spec 95 c); [congruence|done].
Qed.

Lemma search_skip_line b l x :
  newline ∉ l -> (b = true -> head l <> Some 95) ->
  search b (l ++ newline :: x) = search true x.
Proof.
  revert b. induction l as [|c l IH]; intros b Hl Hb.
  - change ([] ++ newline :: x) with (newline :: x).
    cbn [search]. rewrite match_at_other by done.
    by destruct b.
  - change ((c :: l) ++ newline :: x) with (c :: (l ++ newline :: x)).
    cbn [search].
    assert ((if b then match_at (c :: l ++ newline :: x) else None) = None) as ->.
    { destruct b; [|done]. apply match_at_other. intros ->. by apply Hb. }
    destruct (Z.eqb_spec c newline) as [->|_];
      [exfalso; apply Hl, list_elem_of_here|].
    apply IH; [|done]. intros Hin. by apply Hl, list_elem_of_further.
Qed.

Lemma search_skip_lines pre x :
  other_lines pre -> search true (pre ++ x) = search true x.
Proof.
  intros (ls & -> & Hls). induction Hls as [|l ls [Hl Hh] _ IH]; [done|].
  simpl. rewrite <- !app_assoc. simpl. by rewrite search_skip_line.
Qed.

Lemma not_elem_of_forallb (x : Z) (l : list Z) :
  forallb (fun c => negb (c =? x)) l = true -> x ∉ l.
Proof.
  induction l as [|c l IH]; simpl; [intros _; apply not_elem_of_nil|].
  intros [Hc Hl]%andb_prop. rewrite elem_of_cons. intros [->|Hin].
  - by rewrite Z.eqb_refl in Hc.
  - by apply IH.
Qed.

(** X18: when [find_version] returns a version, the text holds, at the
    start of a line, [__version__], spaces, [=], spaces and a double quote;
    the version is what follows up to the last double quote of that line,
    so it holds no newline but may hold quotes. *)
Theorem X18_version_found_is_quoted far g :
  find_version far = Some g ->
  exists pre sp1 sp2 rest,
    far = pre ++ key ++ sp1 ++ [equals] ++ sp2 ++ [quote] ++ g ++ [quote] ++ rest /\
    (pre = [] \/ last pre = Some newline) /\
    Forall (fun c => is_space c = true) sp1 /\
    Forall (fun c => is_space c = true) sp2 /\
    (newline ∉ g) /\ no_quote_on_line rest.
Proof.
  intros Hf. destruct (search_Some _ _ _ Hf) as (pre & s' & -> & Hm & Hpre).
  destruct (match_at_Some _ _ Hm) as (sp1 & sp2 & rest & -> & H1 & H2 & Hn & Hq).
  exists pre, sp1, sp2, rest. split; [done|]. split; [|done].
  destruct Hpre as [[-> _]|?]; auto.
Qed.

Lemma X18_version_found_is_quoted_witness :
  exists pre sp1 sp2 rest,
    key ++ codes " = " ++ [quote] ++ codes "1.0" ++ [quote]
    = pre ++ key ++ sp1 ++ [equals] ++ sp2 ++ [quote] ++ codes "1.0"
      ++ [quote] ++ rest /\
    (pre = [] \/ last pre = Some newline) /\
    Forall (fun c => is_space c = true) sp1 /\
    Forall (fun c => is_space c = true) sp2 /\
    (newline ∉ codes "1.0") /\ no_quote_on_line rest.
Proof.
  apply (X18_version_found_is_quoted
           (key ++ codes " = " ++ [quote] ++ codes "1.0" ++ [quote]) (codes "1.0")).
  reflexivity.
Defined.

(** X19: a text made of complete lines that do not start with an
    underscore, followed by a line [__version__ = Q v Q] with any spaces
    around [=], where Q is the double quote, [v] holds no newline and no
    quote follows on the line, gives back [v]. *)
Theorem X19_version_line_read_back pre sp1 sp2 v rest :
  other_lines pre ->
  Forall (fun c => is_space c = true) sp1 ->
  Forall (fun c => is_space c = true) sp2 ->
  newline ∉ v -> no_quote_on_line rest ->
  find_version
    (pre ++ key ++ sp1 ++ [equals] ++ sp2 ++ [quote] ++ v ++ [quote] ++ rest)
  = Some v.
Proof.
  intros Hpre H1 H2 Hv Hq. unfold find_version.
  rewrite search_skip_lines by done.
  pose proof (match_at_line sp1 sp2 v rest H1 H2 Hv Hq) as Hm.
  destruct (key ++ sp1 ++ [equals] ++ sp2 ++ [quote] ++ v ++ [quote] ++ rest);
    cbn [search]; by rewrite Hm.
Qed.

Lemma X19_version_line_read_back_witness :
  find_version
    (codes "# riskmapjnr" ++ [newline] ++ key ++ codes " " ++ [equals]
     ++ codes " " ++ [quote] ++ codes "1.2" ++ [quote] ++ [])
  = Some (codes "1.2").
Proof.
  apply (X19_version_line_read_back (codes "# riskmapjnr" ++ [newline])
           (codes " ") (codes " ") (codes "1.2") []).
  - exists [codes "# riskmapjnr"]. split; [reflexivity|].
    repeat constructor; [|discriminate].
    by apply not_elem_of_forallb.
  - repeat constructor.
  - repeat constructor.
  - by apply not_elem_of_forallb.
  - intros l1 l2 H. by destruct l1.
Defined.

(** The group is greedy: of two quoted pieces on the line it takes
    everything up to the last quote. *)
Example version_with_two_quoted_pieces :
  find_version (key ++ codes " = " ++ [quote] ++ codes "1" ++ [quote]
                ++ codes " + " ++ [quote] ++ codes "2" ++ [quote])
  = Some (codes "1" ++ [quote] ++ codes " + " ++ [quote] ++ codes "2").
Proof. reflexivity. Qed.

(** X20: a text that does not hold [__version__] anywhere gives no version:
    [re.search] returns [None] and the call raises. *)
Theorem X20_no_key_no_version far :
  (forall pre post, far <> pre ++ key ++ post) -> find_version far = None.
Proof.
  intros Hno. destruct (find_version far) as [g|] eqn:Hf; [|done].
  destruct (search_Some _ _ _ Hf) as (pre & s' & -> & Hm & _).
  destruct (match_at_Some _ _ Hm) as (sp1 & sp2 & rest & -> & _).
  exfalso. by eapply Hno.
Qed.

Lemma X20_no_key_no_version_witness :
  find_version (codes "name = 'riskmapjnr'" ++ [newline] ++ codes "version = 1")
  = None.
Proof.
  apply (X20_no_key_no_version
           (codes "name = 'riskmapjnr'" ++ [newline] ++ codes "version = 1")).
  intros pre post H.
  assert (95 ∈ codes "name = 'riskmapjnr'" ++ [newline] ++ codes "version = 1")
    as Hin.
  { rewrite H. apply elem_of_app. right. apply elem_of_app. left.
    apply list_elem_of_here. }
  revert Hin. by apply not_elem_of_forallb.
Defined.

End FindVersion.
